(** * Salesforce_Pipeline: a shallow embedding of [salesforce_pipeline.py]

    The program is one Python class, [SalesforceDataFetcher], whose method
    [fetch_and_save_data] runs four I/O stages in sequence:
    [load_credentials], [connect_to_salesforce], [fetch_data], [save_to_csv].

    The embedding keeps the shape of the source:
    - the instance ([self]) is a record of its attributes;
    - every method is a state-passing computation over a [machine]: the
      instance, the files on disk, and the log of the calls made to the
      outside (config file, remote service, CSV file);
    - the outside (PyYAML, simple_salesforce, the file system) is a record
      of oracles, [world], one field per external call of the source;
    - a [try: ... except ...:] block is a computation that may stop with an
      exception, closed by its handlers. *)

From Stdlib Require Import ZArith Ascii DecimalString.
From stdpp Require Import base strings list gmap.


(** ** Python values the program handles *)

(** Exceptions, by the classes the handlers of the source tell apart.
    [OtherError] is any other subclass of [Exception] (OSError,
    SalesforceAuthenticationFailed, UnicodeDecodeError, ...). *)
Inductive exn : Type :=
  | FileNotFoundError (msg : string)
  | YAMLError (msg : string)
  | KeyError (key : string)
  | TypeError (msg : string)
  | AttributeError (msg : string)
  | OtherError (msg : string).

(** [repr] of a Python string that holds no quote and no backslash. *)
Definition py_repr (k : string) : string := "'" +:+ k +:+ "'".

(** [str(e)], what an f-string puts for [{e}]. *)
Definition exn_str (e : exn) : string :=
  match e with
  | KeyError k => py_repr k
  | FileNotFoundError msg | YAMLError msg | TypeError msg
  | AttributeError msg | OtherError msg => msg
  end.

(** What [yaml.safe_load] can return. A mapping keeps the order of the
    file; its keys are distinct, as those of a Python dict are. *)
#[local] Set Warnings "-register-all".
Inductive yaml : Type :=
  | YNull
  | YBool (b : bool)
  | YInt (z : Z)
  | YStr (s : string)
  | YList (l : list yaml)
  | YDict (d : list (string * yaml)).

(** Python's [d[k]] on a dict kept as an association list. *)
Fixpoint assoc {A : Type} (k : string) (d : list (string * A)) : option A :=
  match d with
  | [] => None
  | (k', v) :: d' => if String.eqb k k' then Some v else assoc k d'
  end.

(** [v[k]] for a string key [k]: a dict answers or raises [KeyError]; every
    other value raises [TypeError]. *)
Definition subscript (v : yaml) (k : string) : exn + yaml :=
  match v with
  | YDict d =>
      match assoc k d with
      | Some x => inr x
      | None => inl (KeyError k)
      end
  | YNull => inl (TypeError "'NoneType' object is not subscriptable")
  | YBool _ => inl (TypeError "'bool' object is not subscriptable")
  | YInt _ => inl (TypeError "'int' object is not subscriptable")
  | YStr _ => inl (TypeError "string indices must be integers, not 'str'")
  | YList _ => inl (TypeError "list indices must be integers or slices, not str")
  end.

(** What a method of the class returns when it is not a DataFrame. *)
Inductive pyval : Type :=
  | PNone
  | PBool (b : bool)
  | PStr (s : string).

Definition str_truthy (s : string) : bool := negb (String.eqb s "").

(** Python's [needle in hay] on strings. *)
Fixpoint contains (needle hay : string) : bool :=
  String.prefix needle hay ||
  match hay with
  | EmptyString => false
  | String _ hay' => contains needle hay'
  end.

(** Python's truth value, as [if x:] and [not x] take it. *)
Definition truthy (v : pyval) : bool :=
  match v with
  | PNone => false
  | PBool b => b
  | PStr s => str_truthy s
  end.

(** Truth value of a list: false when it is empty. *)
Definition list_truthy {A : Type} (l : list A) : bool :=
  match l with
  | [] => false
  | _ :: _ => true
  end.

(** Truth value of an argument or attribute that is [None] or a string. *)
Definition opt_truthy (o : option string) : bool :=
  match o with
  | None => false
  | Some s => str_truthy s
  end.

(** [f"{x}"] for an attribute that is [None] or a string. *)
Definition fmt_opt (o : option string) : string :=
  match o with
  | None => "None"
  | Some s => s
  end.

(** ** Records, tables and the CSV text *)

(** A scalar of a record. [VOther] is any value this model does not look
    into (a float, a nested record such as the [attributes] envelope),
    carried with the text [str] gives for it. *)
Inductive value : Type :=
  | VNull
  | VStr (s : string)
  | VInt (z : Z)
  | VBool (b : bool)
  | VOther (shown : string).

(** One record of a query response: field name to value, in the order of
    the response. *)
Definition record : Type := list (string * value).

(** The response of [Salesforce.query]: the REST query result, of which the
    source reads [records] only. [totalSize] is the number of records that
    match the query, [done] tells whether [records] holds them all (when it
    is false the service holds the rest behind a continuation link). *)
Record response : Type := {
  totalSize : nat;
  done_flag : bool;
  records : list record
}.

(** One entry of [describe()['fields']]; the source reads [name]. *)
Record sf_field : Type := {
  name : string;
  label : string
}.

(** A pandas DataFrame: column labels and rows of cells. *)
Record dataframe : Type := {
  columns : list string;
  rows : list (list value)
}.

(** [pd.DataFrame(records)] for a list of dicts: the columns are the keys
    of the records in the order they are first seen; a record that lacks a
    column gets a null cell there. *)
Definition add_key (cols : list string) (k : string) : list string :=
  if existsb (String.eqb k) cols then cols else cols ++ [k].

Definition union_keys (rs : list record) : list string :=
  foldl add_key [] (concat (map (map fst) rs)).

Definition cell_of (r : record) (c : string) : value :=
  match assoc c r with
  | Some v => v
  | None => VNull
  end.

Definition DataFrame (rs : list record) : dataframe :=
  let cols := union_keys rs in
  {| columns := cols; rows := map (fun r => map (cell_of r) cols) rs |}.

(** Keeps the entries of [l] at the positions where [mask] is true. *)
Fixpoint select {A : Type} (mask : list bool) (l : list A) : list A :=
  match mask, l with
  | b :: mask', x :: l' => if b then x :: select mask' l' else select mask' l'
  | _, _ => []
  end.

(** [df.drop(labels=lbl, axis=1, errors='ignore')]: the frame without the
    columns labelled [lbl]; unchanged when there is none. *)
Definition drop (lbl : string) (df : dataframe) : dataframe :=
  let mask := map (fun c => negb (String.eqb c lbl)) (columns df) in
  {| columns := select mask (columns df);
     rows := map (select mask) (rows df) |}.

(** *** The text [to_csv] writes

    [df.to_csv(path, index=False)] hands the header and then each row to
    Python's [csv.writer] with the default dialect: comma separated,
    minimal quoting with the double quote, one line feed after each row.
    A null cell is written as the empty field. *)
Definition dquote : ascii := ascii_of_nat 34.
Definition lf : ascii := ascii_of_nat 10.
Definition cr : ascii := ascii_of_nat 13.
Definition comma : ascii := ascii_of_nat 44.

Definition csv_special (c : ascii) : bool :=
  Ascii.eqb c comma || Ascii.eqb c dquote || Ascii.eqb c lf || Ascii.eqb c cr.

Fixpoint needs_quote (s : string) : bool :=
  match s with
  | EmptyString => false
  | String c s' => csv_special c || needs_quote s'
  end.

(** Every double quote of the field is written twice. *)
Fixpoint double_quotes (s : string) : string :=
  match s with
  | EmptyString => EmptyString
  | String c s' =>
      if Ascii.eqb c dquote then String dquote (String dquote (double_quotes s'))
      else String c (double_quotes s')
  end.

Definition csv_field (s : string) : string :=
  if needs_quote s then String dquote (double_quotes s +:+ String dquote EmptyString)
  else s.

(** Python's [sep.join(l)]. *)
Definition join (sep : string) (l : list string) : string := String.concat sep l.

(** One row. A row whose only field is empty is written as two quotes, so
    that it does not read back as a blank line. *)
Definition csv_line (cells : list string) : string :=
  match cells with
  | [c] =>
      if String.eqb c "" then String dquote (String dquote EmptyString)
      else csv_field c
  | _ => join "," (map csv_field cells)
  end +:+ String lf EmptyString.

Definition str_value (v : value) : string :=
  match v with
  | VNull => ""
  | VStr s => s
  | VInt z => NilZero.string_of_int (Z.to_int z)
  | VBool true => "True"
  | VBool false => "False"
  | VOther shown => shown
  end.

(** The rows of text of the file: the header, then one per record. *)
Definition csv_table (df : dataframe) : list (list string) :=
  columns df :: map (map str_value) (rows df).

(** [writer.writerow] on each row in turn. *)
Fixpoint writerows (table : list (list string)) : string :=
  match table with
  | [] => ""
  | r :: table' => csv_line r +:+ writerows table'
  end.

Definition to_csv_text (df : dataframe) : string := writerows (csv_table df).

(** *** Reading the text back

    The source has no reader. To state that the file can be re-read, this is
    the reader of the dialect [to_csv] writes, as Python's [csv.reader]
    runs it: a field starts quoted or not, a doubled quote inside a quoted
    field is one quote, a comma ends a field, a line feed ends a row, and a
    blank line is a row with no field. *)
Inductive rstate : Type :=
  | StartRecord
  | StartField
  | InField
  | InQuoted
  | QuoteInQuoted.

Definition snoc (s : string) (c : ascii) : string := s +:+ String c EmptyString.

Fixpoint reader (st : rstate) (cur : string) (row : list string) (s : string)
    : list (list string) :=
  match s with
  | EmptyString =>
      match st with
      | StartRecord => []
      | _ => [row ++ [cur]]
      end
  | String c s' =>
      match st with
      | StartRecord =>
          if Ascii.eqb c lf then [] :: reader StartRecord "" [] s'
          else if Ascii.eqb c dquote then reader InQuoted "" row s'
          else if Ascii.eqb c comma then reader StartField "" (row ++ [""]) s'
          else reader InField (String c EmptyString) row s'
      | StartField =>
          if Ascii.eqb c lf then (row ++ [""]) :: reader StartRecord "" [] s'
          else if Ascii.eqb c dquote then reader InQuoted "" row s'
          else if Ascii.eqb c comma then reader StartField "" (row ++ [""]) s'
          else reader InField (String c EmptyString) row s'
      | InField =>
          if Ascii.eqb c lf then (row ++ [cur]) :: reader StartRecord "" [] s'
          else if Ascii.eqb c comma then reader StartField "" (row ++ [cur]) s'
          else reader InField (snoc cur c) row s'
      | InQuoted =>
          if Ascii.eqb c dquote then reader QuoteInQuoted cur row s'
          else reader InQuoted (snoc cur c) row s'
      | QuoteInQuoted =>
          if Ascii.eqb c dquote then reader InQuoted (snoc cur dquote) row s'
          else if Ascii.eqb c lf then (row ++ [cur]) :: reader StartRecord "" [] s'
          else if Ascii.eqb c comma then reader StartField "" (row ++ [cur]) s'
          else reader InField (snoc cur c) row s'
      end
  end.

Definition read_rows (text : string) : list (list string) :=
  reader StartRecord "" [] text.

(** The records a reader gets: each data row paired with the header. *)
Definition read_records (text : string) : option (list (list (string * string))) :=
  match read_rows text with
  | [] => None
  | header :: data => Some (map (fun r => zip header r) data)
  end.

(** The records of a frame with every value replaced by its text. *)
Definition shown_records (df : dataframe) : list (list (string * string)) :=
  map (fun r => zip (columns df) (map str_value r)) (rows df).

(** ** The instance, the outside world, and the machine *)

(** A live connection handle, as [Salesforce(...)] returns it. *)
Definition handle : Type := nat.

(** The attributes of a [SalesforceDataFetcher]. [uname], [pwd] and
    [sftoken] do not exist before [load_credentials] assigns them: [None]
    stands for the missing attribute. For [sf], [table_name] and
    [file_name], [None] is Python's [None], as [__init__] sets it. *)
Record fetcher : Type := {
  config_path : string;
  domain : string;
  sf : option handle;
  table_name : option string;
  file_name : option string;
  fields : list string;
  uname : option yaml;
  pwd : option yaml;
  sftoken : option yaml
}.

(** [SalesforceDataFetcher(config_path, domain)] *)
Definition init (config_path domain : string) : fetcher :=
  {| config_path := config_path; domain := domain; sf := None;
     table_name := None; file_name := None; fields := [];
     uname := None; pwd := None; sftoken := None |}.

(** The external calls of the source, one oracle each:
    - [open_and_load p]: [open(p, 'r')] followed by [yaml.safe_load];
    - [login u p t d]: the constructor [Salesforce(username=u, password=p,
      security_token=t, domain=d)];
    - [describe h t]: [h.__getattr__(t).describe()['fields']];
    - [query h q]: [h.query(q)];
    - [open_for_write p]: the exception [to_csv] raises when it cannot
      write to [p], if any. *)
Record world : Type := {
  open_and_load : string -> exn + yaml;
  login : yaml -> yaml -> yaml -> string -> exn + handle;
  describe : handle -> string -> exn + list sf_field;
  query : handle -> string -> exn + response;
  open_for_write : string -> option exn
}.

(** The calls that leave the process, in the order they are made. *)
Inductive event : Type :=
  | EvOpenConfig (path : string)
  | EvLogin (u p t : yaml) (d : string)
  | EvDescribe (h : handle) (table : string)
  | EvQuery (h : handle) (soql : string)
  | EvToCsv (path : string).

Record machine : Type := {
  self : fetcher;
  disk : gmap string string;
  log : list event
}.

Definition boot (f : fetcher) : machine :=
  {| self := f; disk := ∅; log := [] |}.

(** *** Computations *)

(** A statement sequence: reads and updates the machine, returns a value. *)
Definition M (A : Type) : Type := machine -> A * machine.

Definition ret {A} (a : A) : M A := fun m => (a, m).

Definition bind {A B} (c : M A) (k : A -> M B) : M B :=
  fun m => let (a, m') := c m in k a m'.

Notation "'let*' x ':=' c 'in' k" := (bind c (fun x => k))
  (at level 10, x name, c at level 100, k at level 200).

(** The body of a [try] block: it stops at the first exception raised. *)
Definition T (A : Type) : Type := machine -> (exn + A) * machine.

Definition retT {A} (a : A) : T A := fun m => (inr a, m).

Definition bindT {A B} (c : T A) (k : A -> T B) : T B :=
  fun m =>
    match c m with
    | (inl e, m') => (inl e, m')
    | (inr a, m') => k a m'
    end.

Notation "'let?' x ':=' c 'in' k" := (bindT c (fun x => k))
  (at level 10, x name, c at level 100, k at level 200).

(** An expression that may raise, evaluated inside a [try] block. *)
Definition eval {A} (r : exn + A) : T A := fun m => (r, m).

(** A statement that cannot raise, inside a [try] block. *)
Definition exec {A} (c : M A) : T A := fun m => let (a, m') := c m in (inr a, m').

(** [try: body  except ...: return handler(e)], where the value of the body
    is what the method returns (or falls off with) when nothing is raised. *)
Definition try_except {A} (body : T A) (handler : exn -> A) : M A :=
  fun m =>
    match body m with
    | (inl e, m') => (handler e, m')
    | (inr a, m') => (a, m')
    end.

Definition get_self : M fetcher := fun m => (self m, m).

Definition set_self (f : fetcher) : M unit :=
  fun m => (tt, {| self := f; disk := disk m; log := log m |}).

Definition emit (e : event) : M unit :=
  fun m => (tt, {| self := self m; disk := disk m; log := log m ++ [e] |}).

Definition write_disk (path content : string) : M unit :=
  fun m => (tt, {| self := self m; disk := <[path := content]> (disk m); log := log m |}).

(** Attribute assignments, [self.x = v]. *)
Definition set_uname (v : yaml) (f : fetcher) : fetcher :=
  {| config_path := config_path f; domain := domain f; sf := sf f;
     table_name := table_name f; file_name := file_name f; fields := fields f;
     uname := Some v; pwd := pwd f; sftoken := sftoken f |}.

Definition set_pwd (v : yaml) (f : fetcher) : fetcher :=
  {| config_path := config_path f; domain := domain f; sf := sf f;
     table_name := table_name f; file_name := file_name f; fields := fields f;
     uname := uname f; pwd := Some v; sftoken := sftoken f |}.

Definition set_sftoken (v : yaml) (f : fetcher) : fetcher :=
  {| config_path := config_path f; domain := domain f; sf := sf f;
     table_name := table_name f; file_name := file_name f; fields := fields f;
     uname := uname f; pwd := pwd f; sftoken := Some v |}.

Definition set_sf (h : handle) (f : fetcher) : fetcher :=
  {| config_path := config_path f; domain := domain f; sf := Some h;
     table_name := table_name f; file_name := file_name f; fields := fields f;
     uname := uname f; pwd := pwd f; sftoken := sftoken f |}.

Definition set_table_name (t : string) (f : fetcher) : fetcher :=
  {| config_path := config_path f; domain := domain f; sf := sf f;
     table_name := Some t; file_name := file_name f; fields := fields f;
     uname := uname f; pwd := pwd f; sftoken := sftoken f |}.

Definition set_file_name (n : string) (f : fetcher) : fetcher :=
  {| config_path := config_path f; domain := domain f; sf := sf f;
     table_name := table_name f; file_name := Some n; fields := fields f;
     uname := uname f; pwd := pwd f; sftoken := sftoken f |}.

Definition set_fields (l : list string) (f : fetcher) : fetcher :=
  {| config_path := config_path f; domain := domain f; sf := sf f;
     table_name := table_name f; file_name := file_name f; fields := l;
     uname := uname f; pwd := pwd f; sftoken := sftoken f |}.

Definition assign (upd : fetcher -> fetcher) : M unit :=
  let* s := get_self in set_self (upd s).

(** Reading an attribute that may not exist yet. *)
Definition getattr (what : string) (o : option yaml) : exn + yaml :=
  match o with
  | Some v => inr v
  | None => inl (AttributeError
      ("'SalesforceDataFetcher' object has no attribute " +:+ py_repr what))
  end.

(** ** The methods of [SalesforceDataFetcher] *)

(** The query text of [fetch_data]:
    [fields_str = ', '.join(fields)] and
    [f"SELECT {fields_str} FROM {self.table_name}"]. *)
Definition build_query (fields : list string) (table : string) : string :=
  let fields_str := join ", " fields in
  "SELECT " +:+ fields_str +:+ " FROM " +:+ table.

(** The [except] clauses of [load_credentials], tried in order. *)
Definition load_credentials_handler (e : exn) : option string :=
  match e with
  | FileNotFoundError _ => Some ("Error: Config file not found: " +:+ exn_str e)
  | YAMLError _ => Some ("Error: YAML parsing error: " +:+ exn_str e)
  | KeyError _ => Some ("Error: Missing required key in config file: " +:+ exn_str e)
  | _ => Some ("Error loading credentials: " +:+ exn_str e)
  end.

Section Methods.

Context (w : world).

(** [load_credentials]: [None] when the three attributes are set, the
    message of the handler otherwise. The assignments made before the
    exception stay. *)
Definition load_credentials : M (option string) :=
  try_except
    (let? path := exec (let* s := get_self in ret (config_path s)) in
     let? _ := exec (emit (EvOpenConfig path)) in
     let? config := eval (open_and_load w path) in
     let? group := eval (subscript config "salesforce") in
     let? u := eval (subscript group "uname") in
     let? _ := exec (assign (set_uname u)) in
     let? group := eval (subscript config "salesforce") in
     let? p := eval (subscript group "pwd") in
     let? _ := exec (assign (set_pwd p)) in
     let? group := eval (subscript config "salesforce") in
     let? t := eval (subscript group "sftoken") in
     let? _ := exec (assign (set_sftoken t)) in
     retT None)
    load_credentials_handler.

(** The call [Salesforce(username=..., password=..., security_token=...,
    domain=...)]: the attributes are read first, then the service is
    contacted. *)
Definition Salesforce : T handle :=
  let? s := exec get_self in
  let? u := eval (getattr "uname" (uname s)) in
  let? p := eval (getattr "pwd" (pwd s)) in
  let? t := eval (getattr "sftoken" (sftoken s)) in
  let? _ := exec (emit (EvLogin u p t (domain s))) in
  eval (login w u p t (domain s)).

(** [connect_to_salesforce]: [True], or the message of the handler. *)
Definition connect_to_salesforce : M pyval :=
  try_except
    (let? h := Salesforce in
     let? _ := exec (assign (set_sf h)) in
     retT (PBool true))
    (fun e => PStr ("Error connecting to Salesforce please check if you have valid credentials: "
                    +:+ exn_str e)).

(** [self.sf.__getattr__(table).describe()] and the list comprehension
    over [object_description['fields']]. With [self.sf] still [None] the
    attribute access raises before anything leaves the process. *)
Definition describe_fields (table : string) : T (list string) :=
  let? s := exec get_self in
  match sf s with
  | None => eval (inl (AttributeError "'NoneType' object has no attribute '__getattr__'"))
  | Some h =>
      let? _ := exec (emit (EvDescribe h table)) in
      let? object_description := eval (describe w h table) in
      retT (map name object_description)
  end.

(** [self.sf.query(query)] *)
Definition run_query (soql : string) : T response :=
  let? s := exec get_self in
  match sf s with
  | None => eval (inl (AttributeError "'NoneType' object has no attribute 'query'"))
  | Some h =>
      let? _ := exec (emit (EvQuery h soql)) in
      eval (query w h soql)
  end.

(** [fetch_data]: the DataFrame of the response, or an error message. *)
Definition fetch_data : M (string + dataframe) :=
  let* s := get_self in
  if negb (opt_truthy (table_name s)) then
    ret (inl "Error: Table name not provided. Please set the table name before fetching data.")
  else
    let table := fmt_opt (table_name s) in
    let* resolved :=
      (if negb (list_truthy (fields s)) then
         try_except
           (let? names := describe_fields table in retT (inr names))
           (fun e => inl ("Error retrieving fields for " +:+ table +:+ ": " +:+ exn_str e))
       else ret (inr (fields s))) in
    match resolved with
    | inl message => ret (inl message)
    | inr fields =>
        let soql := build_query fields table in
        try_except
          (let? response := run_query soql in
           let df := drop "attributes" (DataFrame (records response)) in
           retT (inr df))
          (fun e => inl ("Error executing query: " +:+ exn_str e))
    end.

(** [df.to_csv(self.file_name, index=False)]: the file is replaced by the
    text of the frame, unless the path cannot be written. *)
Definition to_csv (df : dataframe) (path : string) : T unit :=
  let? _ := exec (emit (EvToCsv path)) in
  match open_for_write w path with
  | Some e => eval (inl e)
  | None => exec (write_disk path (to_csv_text df))
  end.

(** [save_to_csv] *)
Definition save_to_csv (df : dataframe) : M string :=
  let* s := get_self in
  let* _ :=
    (if negb (opt_truthy (file_name s)) then
       assign (set_file_name (fmt_opt (table_name s) +:+ ".csv"))
     else ret tt) in
  let* s := get_self in
  let path := fmt_opt (file_name s) in
  try_except
    (let? _ := to_csv df path in
     retT ("Data saved to " +:+ path))
    (fun e => "Error saving data to file: " +:+ exn_str e).

(** [fetch_and_save_data(table_name=None, fields=None, file_name=None)] *)
Definition fetch_and_save_data
    (table_name : option string) (fields : option (list string))
    (file_name : option string) : M string :=
  if opt_truthy table_name then
    let* _ := assign (set_table_name (fmt_opt table_name)) in
    let* _ :=
      match fields with
      | Some l => assign (set_fields l)
      | None => ret tt
      end in
    let* _ :=
      match file_name with
      | Some n => assign (set_file_name n)
      | None => ret tt
      end in
    let* error := load_credentials in
    if opt_truthy error then ret (fmt_opt error)
    else
      let* connected := connect_to_salesforce in
      if negb (truthy connected) then ret "Error connecting to Salesforce."
      else
        let* df := fetch_data in
        match df with
        | inr frame => save_to_csv frame
        | inl message => ret message
        end
  else ret "Error: Please provide a table name for fetching data first.".

End Methods.

(** ** Observations on a run *)

(** The credential keys [load_credentials] reads, in the order it reads them. *)
Definition required_keys : list string := ["uname"; "pwd"; "sftoken"].

(** [config['salesforce'][k]] *)
Definition credential (config : yaml) (k : string) : exn + yaml :=
  match subscript config "salesforce" with
  | inl e => inl e
  | inr group => subscript group k
  end.

Definition succeeds {A : Type} (r : exn + A) : bool :=
  match r with
  | inl _ => false
  | inr _ => true
  end.

(** The request an instance holds: table, fields, output file. *)
Definition request (f : fetcher) : option string * list string * option string :=
  (table_name f, fields f, file_name f).

(** The path [save_to_csv] writes to: the file name of the instance, or
    the table name with [.csv] when there is none. *)
Definition target_path (f : fetcher) : string :=
  if opt_truthy (file_name f) then fmt_opt (file_name f)
  else fmt_opt (table_name f) +:+ ".csv".

(** The attributes after the assignments that open [fetch_and_save_data]
    (the table name always, the fields and the file name when given). *)
Definition with_arguments (t : string) (fs : option (list string))
    (fn : option string) (f : fetcher) : fetcher :=
  let f1 := set_table_name t f in
  let f2 := match fs with Some l => set_fields l f1 | None => f1 end in
  match fn with Some n => set_file_name n f2 | None => f2 end.

(** The query texts and the CSV paths among some events. *)
Definition queries (evs : list event) : list string :=
  omap (fun e => match e with EvQuery _ q => Some q | _ => None end) evs.

Definition csv_paths (evs : list event) : list string :=
  omap (fun e => match e with EvToCsv p => Some p | _ => None end) evs.

(** A column label that [csv.writer] leaves as it is: not empty, and free
    of comma, quote and line break (every Salesforce API name is so). *)
Definition plain_name (c : string) : bool :=
  str_truthy c && negb (needs_quote c).

(** Spec side of the query text: the fields in order, each one after the
    first preceded by a comma and a space. *)
Definition field_list_text (f : string) (rest : list string) : string :=
  f +:+ foldr (fun g acc => ", " +:+ g +:+ acc) "" rest.

Definition select_text (f : string) (rest : list string) (table : string) : string :=
  "SELECT " +:+ field_list_text f rest +:+ " FROM " +:+ table.

(** ** Concrete scenarios *)

Module Scenario.

Definition good_config : yaml :=
  YDict [("salesforce",
          YDict [("uname", YStr "ada@example.com"); ("pwd", YStr "s3cret");
                 ("sftoken", YStr "tok")])].

(** A config file where [pwd] is missing. *)
Definition config_without_pwd : yaml :=
  YDict [("salesforce",
          YDict [("uname", YStr "ada@example.com"); ("sftoken", YStr "tok")])].

Definition envelope : value := VOther "{'type': 'Account'}".

Definition two_records : list record :=
  [ [("attributes", envelope); ("Id", VStr "001"); ("Name", VStr "Acme, Inc")];
    [("attributes", envelope); ("Id", VStr "002"); ("Name", VNull)] ].

Definition described : list sf_field :=
  [ {| name := "Id"; label := "Record ID" |};
    {| name := "Name"; label := "Account Name" |} ].

(** The service accepts the login and answers every query in full. *)
Definition org_up : world :=
  {| open_and_load := fun _ => inr good_config;
     login := fun _ _ _ _ => inr 7;
     describe := fun _ _ => inr described;
     query := fun _ _ =>
       inr {| totalSize := 2; done_flag := true; records := two_records |};
     open_for_write := fun _ => None |}.

(** The same service, refusing the login. *)
Definition org_down : world :=
  {| open_and_load := fun _ => inr good_config;
     login := fun _ _ _ _ => inl (OtherError "INVALID_LOGIN: Invalid username, password, security token");
     describe := fun _ _ => inr described;
     query := fun _ _ =>
       inr {| totalSize := 2; done_flag := true; records := two_records |};
     open_for_write := fun _ => None |}.

(** The service answers with the first batch only: three records match,
    two are in the response, and [done] is false. *)
Definition org_paged : world :=
  {| open_and_load := fun _ => inr good_config;
     login := fun _ _ _ _ => inr 7;
     describe := fun _ _ => inr described;
     query := fun _ _ =>
       inr {| totalSize := 3; done_flag := false; records := two_records |};
     open_for_write := fun _ => None |}.

(** The same service, with [config] as the parsed config file. *)
Definition org_with_config (config : yaml) : world :=
  {| open_and_load := fun _ => inr config;
     login := fun _ _ _ _ => inr 7;
     describe := fun _ _ => inr described;
     query := fun _ _ =>
       inr {| totalSize := 2; done_flag := true; records := two_records |};
     open_for_write := fun _ => None |}.

(** The config file lacks [pwd]. *)
Definition org_no_pwd : world := org_with_config config_without_pwd.

(** [SalesforceDataFetcher()] before any call. *)
Definition fresh : machine := boot (init "config.yml" "test").

(** The instance after a successful run
    [fetch_and_save_data('Account', ['Id'], None)]. *)
Definition after_account : machine :=
  (fetch_and_save_data org_up (Some "Account") (Some ["Id"]) None fresh).2.

(** An instance ready to fetch [Account] over a live connection. *)
Definition connected (fs : list string) : machine :=
  boot {| config_path := "config.yml"; domain := "test"; sf := Some 7;
          table_name := Some "Account"; file_name := None; fields := fs;
          uname := Some (YStr "ada@example.com"); pwd := Some (YStr "s3cret");
          sftoken := Some (YStr "tok") |}.

Definition abc_frame : dataframe :=
  {| columns := ["a"; "b"; "c"];
     rows := [ [VInt 1; VStr "x,y"; VBool true];
               [VInt (-2); VNull; VStr "z"] ] |}.

End Scenario.

(** ** The script

    The [__main__] block: a new [SalesforceDataFetcher()] with the default
    config path and domain, one call of [fetch_and_save_data] for
    [ContentVersion] with an empty field list and no file name, and the
    result printed when it is true in a condition. The script starts on
    the files [d]; its value is the lines printed and the machine left. *)
Definition start (d : gmap string string) : machine :=
  {| self := init "config.yml" "test"; disk := d; log := [] |}.

Definition main (w : world) (d : gmap string string) : list string * machine :=
  let table_name := Some "ContentVersion" in
  let fields := Some [] in
  let file_name := None in
  let fetcher := start d in
  let (result, m) := fetch_and_save_data w table_name fields file_name fetcher in
  if str_truthy result then ([result], m) else ([], m).

(** ** The order of the external calls *)

(** The stage an external call belongs to. *)
Definition stage (e : event) : nat :=
  match e with
  | EvOpenConfig _ => 0
  | EvLogin _ _ _ _ => 1
  | EvDescribe _ _ => 2
  | EvQuery _ _ => 3
  | EvToCsv _ => 4
  end.

(** Strictly increasing. *)
Fixpoint ascending (l : list nat) : bool :=
  match l with
  | a :: l' =>
      match l' with
      | b :: _ => Nat.ltb a b && ascending l'
      | [] => true
      end
  | [] => true
  end.

(** The external calls the connection stage and the fetch stage can make. *)
Definition login_calls (evs : list event) : Prop :=
  evs = [] \/ exists u p t d, evs = [EvLogin u p t d].

Definition fetch_calls (evs : list event) : Prop :=
  evs = [] \/ (exists h t, evs = [EvDescribe h t]) \/
  (exists h t q, evs = [EvDescribe h t; EvQuery h q]) \/
  (exists h q, evs = [EvQuery h q]).

(** The instance once the credentials [u], [p], [t] are loaded. *)
Definition loaded (u p t : yaml) (f : fetcher) : fetcher :=
  set_sftoken t (set_pwd p (set_uname u f)).

(** A table whose rows all have one cell for each column. *)
Definition rectangular (df : dataframe) : Prop :=
  Forall (fun r => length r = length (columns df)) (rows df).

(** ** Worlds that fail *)

Module Faults.

(** There is no config file. *)
Definition org_no_file : world :=
  {| open_and_load := fun p =>
       inl (FileNotFoundError ("[Errno 2] No such file or directory: " +:+ py_repr p));
     login := fun _ _ _ _ => inr 7;
     describe := fun _ _ => inr Scenario.described;
     query := fun _ _ =>
       inr {| totalSize := 2; done_flag := true; records := Scenario.two_records |};
     open_for_write := fun _ => None |}.

(** The service does not know the object to describe. *)
Definition org_no_object : world :=
  {| open_and_load := fun _ => inr Scenario.good_config;
     login := fun _ _ _ _ => inr 7;
     describe := fun _ _ => inl (OtherError "Resource Account Not Found");
     query := fun _ _ =>
       inr {| totalSize := 2; done_flag := true; records := Scenario.two_records |};
     open_for_write := fun _ => None |}.

(** The service rejects every query. *)
Definition org_bad_query : world :=
  {| open_and_load := fun _ => inr Scenario.good_config;
     login := fun _ _ _ _ => inr 7;
     describe := fun _ _ => inr Scenario.described;
     query := fun _ _ => inl (OtherError "Malformed request");
     open_for_write := fun _ => None |}.

(** No file can be written. *)
Definition org_read_only : world :=
  {| open_and_load := fun _ => inr Scenario.good_config;
     login := fun _ _ _ _ => inr 7;
     describe := fun _ _ => inr Scenario.described;
     query := fun _ _ =>
       inr {| totalSize := 2; done_flag := true; records := Scenario.two_records |};
     open_for_write := fun _ => Some (OtherError "[Errno 13] Permission denied") |}.

(** An instance that holds credentials but no connection. *)
Definition unconnected (fs : list string) : machine :=
  boot {| config_path := "config.yml"; domain := "test"; sf := None;
          table_name := Some "Account"; file_name := None; fields := fs;
          uname := Some (YStr "ada@example.com"); pwd := Some (YStr "s3cret");
          sftoken := Some (YStr "tok") |}.

Definition small_frame : dataframe :=
  {| columns := ["Id"]; rows := [[VStr "001"]] |}.

Definition other_frame : dataframe :=
  {| columns := ["Id"]; rows := [[VStr "002"]; [VStr "003"]] |}.

End Faults.

(** * Properties *)

(** ** Proof plumbing *)

#[local] Arguments String.append !_ _ : simpl nomatch.
#[local] Arguments build_query : simpl never.
#[local] Arguments to_csv_text : simpl never.
#[local] Arguments DataFrame : simpl never.
#[local] Arguments drop : simpl never.
#[local] Arguments subscript : simpl never.
#[local] Arguments exn_str : simpl never.

(** Unfolds the methods and the plumbing of the computations. *)
Ltac run_monad :=
  unfold fetch_and_save_data, save_to_csv, to_csv, fetch_data, run_query, describe_fields,
    connect_to_salesforce, Salesforce, load_credentials,
    try_except, bindT, bind, exec, eval, retT, ret, assign, get_self, set_self, emit,
    write_disk in *;
  cbn in *.

(** Splits a machine into its attributes, so that the reads compute. *)
Ltac open_machine m :=
  destruct m as [[cfg dom conn tname fname flds cred_u cred_p cred_t] dsk lg];
  cbn in *; simplify_eq.

(** Destructs the first call to the outside the goal is stuck on. *)
Ltac step :=
  match goal with
  | |- context [match ?x with _ => _ end] =>
      lazymatch x with
      | context [match _ with _ => _ end] => fail
      | _ => destruct x eqn:?; cbn in *
      end
  end.

Ltac in_keys := unfold required_keys; repeat constructor.

(** ** The CSV text and its round trip *)

Lemma append_assoc (a b c : string) : (a +:+ b) +:+ c = a +:+ (b +:+ c).
Proof. induction a as [|x a IH]; simpl; [reflexivity | by rewrite IH]. Qed.

Lemma append_empty_r (a : string) : a +:+ "" = a.
Proof. induction a as [|x a IH]; simpl; [reflexivity | by rewrite IH]. Qed.

Lemma snoc_append (cur : string) (c : ascii) (f : string) :
  snoc cur c +:+ f = cur +:+ String c f.
Proof. unfold snoc. by rewrite append_assoc. Qed.

Lemma csv_special_false (c : ascii) :
  csv_special c = false ->
  Ascii.eqb c comma = false /\ Ascii.eqb c dquote = false /\ Ascii.eqb c lf = false.
Proof.
  unfold csv_special. intros H.
  repeat (apply orb_false_elim in H as [H ?]). auto.
Qed.

(** An unquoted run of ordinary characters is taken into the field. *)
Lemma reader_plain (f : string) :
  needs_quote f = false ->
  forall cur row rest,
    reader InField cur row (f +:+ rest) = reader InField (cur +:+ f) row rest.
Proof.
  induction f as [|c f IH]; intros Hq cur row rest; simpl.
  - by rewrite append_empty_r.
  - simpl in Hq. apply orb_false_elim in Hq as [Hc Hf].
    apply csv_special_false in Hc as (Hcomma & _ & Hlf).
    rewrite Hlf, Hcomma, (IH Hf). by rewrite snoc_append.
Qed.

(** Inside quotes, the doubled quotes are read as single ones, up to the
    closing quote. *)
Lemma reader_quoted (f : string) :
  forall cur row rest,
    reader InQuoted cur row (double_quotes f +:+ String dquote rest)
    = reader QuoteInQuoted (cur +:+ f) row rest.
Proof.
  induction f as [|c f IH]; intros cur row rest; simpl.
  - by rewrite append_empty_r.
  - destruct (Ascii.eqb c dquote) eqn:Hc; simpl.
    + apply Ascii.eqb_eq in Hc as ->. rewrite IH. by rewrite snoc_append.
    + rewrite Hc, IH. by rewrite snoc_append.
Qed.

Lemma reader_field_comma (st : rstate) (f : string) (row : list string) (rest : string) :
  st = StartRecord \/ st = StartField ->
  reader st "" row (csv_field f +:+ String comma rest)
  = reader StartField "" (row ++ [f]) rest.
Proof.
  intros Hst. unfold csv_field. destruct (needs_quote f) eqn:Hq.
  - assert (reader st "" row (String dquote (double_quotes f +:+ String dquote "") +:+ String comma rest)
            = reader InQuoted "" row (double_quotes f +:+ String dquote (String comma rest))) as ->.
    { simpl. rewrite append_assoc. simpl. by destruct Hst as [-> | ->]. }
    rewrite reader_quoted. reflexivity.
  - destruct f as [|c f].
    + simpl. by destruct Hst as [-> | ->].
    + simpl in Hq. apply orb_false_elim in Hq as [Hc Hf].
      apply csv_special_false in Hc as (Hcomma & Hdq & Hlf).
      assert (reader st "" row (String c f +:+ String comma rest)
              = reader InField (String c "") row (f +:+ String comma rest)) as ->.
      { simpl. destruct Hst as [-> | ->]; by rewrite Hlf, Hdq, Hcomma. }
      rewrite (reader_plain f Hf). simpl.
      reflexivity.
Qed.

Lemma reader_field_lf (st : rstate) (f : string) (row : list string) (rest : string) :
  st = StartField \/ (st = StartRecord /\ f <> "") ->
  reader st "" row (csv_field f +:+ String lf rest)
  = (row ++ [f]) :: reader StartRecord "" [] rest.
Proof.
  intros Hst. unfold csv_field. destruct (needs_quote f) eqn:Hq.
  - assert (reader st "" row (String dquote (double_quotes f +:+ String dquote "") +:+ String lf rest)
            = reader InQuoted "" row (double_quotes f +:+ String dquote (String lf rest))) as ->.
    { simpl. rewrite append_assoc. simpl. by destruct Hst as [-> | [-> _]]. }
    rewrite reader_quoted. reflexivity.
  - destruct f as [|c f].
    + simpl. destruct Hst as [-> | [_ Hne]]; [reflexivity | congruence].
    + simpl in Hq. apply orb_false_elim in Hq as [Hc Hf].
      apply csv_special_false in Hc as (Hcomma & Hdq & Hlf).
      assert (reader st "" row (String c f +:+ String lf rest)
              = reader InField (String c "") row (f +:+ String lf rest)) as ->.
      { simpl. destruct Hst as [-> | [-> _]]; by rewrite Hlf, Hdq, Hcomma. }
      rewrite (reader_plain f Hf). simpl.
      reflexivity.
Qed.

Lemma join_cons (sep x y : string) (l : list string) :
  join sep (x :: y :: l) = x +:+ sep +:+ join sep (y :: l).
Proof. reflexivity. Qed.

(** The fields after the first one of a row, up to the end of the line. *)
Lemma reader_fields (cells : list string) :
  forall c row rest,
    reader StartField "" row (join "," (map csv_field (c :: cells)) +:+ String lf rest)
    = (row ++ c :: cells) :: reader StartRecord "" [] rest.
Proof.
  induction cells as [|c' cells IH]; intros c row rest.
  - simpl. rewrite reader_field_lf by auto. reflexivity.
  - rewrite !map_cons, join_cons, <- !map_cons, !append_assoc.
    change ("," +:+ ?x) with (String comma x).
    rewrite reader_field_comma by auto.
    rewrite IH. by rewrite <- app_assoc.
Qed.

(** One written row reads back as that row. *)
Lemma reader_line (cells : list string) (rest : string) :
  reader StartRecord "" [] (csv_line cells +:+ rest)
  = cells :: reader StartRecord "" [] rest.
Proof.
  unfold csv_line. rewrite append_assoc. simpl (String lf "" +:+ rest).
  destruct cells as [|c [|c' cells]].
  - reflexivity.
  - destruct (String.eqb c "") eqn:Hc.
    + apply String.eqb_eq in Hc as ->. reflexivity.
    + apply String.eqb_neq in Hc. by rewrite reader_field_lf by auto.
  - rewrite !map_cons, join_cons, <- !map_cons, !append_assoc.
    change ("," +:+ ?x) with (String comma x).
    rewrite reader_field_comma by auto.
    by rewrite reader_fields.
Qed.

(** Round trip of the text: what is written reads back row for row. *)
Lemma read_rows_writerows (table : list (list string)) :
  read_rows (writerows table) = table.
Proof.
  unfold read_rows. induction table as [|r table IH]; [reflexivity|].
  simpl. by rewrite reader_line, IH.
Qed.

(** What [save_to_csv] does when the file can be written, and when not. *)
Lemma save_to_csv_writes (w : world) (m : machine) (df : dataframe) :
  open_for_write w (target_path (self m)) = None ->
  save_to_csv w df m =
    ("Data saved to " +:+ target_path (self m),
     {| self := set_file_name (target_path (self m)) (self m);
        disk := <[target_path (self m) := to_csv_text df]> (disk m);
        log := log m ++ [EvToCsv (target_path (self m))] |}).
Proof.
  intros Hw. open_machine m. unfold target_path in *. run_monad.
  destruct fname as [n|]; cbn in *.
  - destruct (str_truthy n) eqn:Hn; cbn in *; rewrite ?Hn; cbn; rewrite Hw; reflexivity.
  - rewrite Hw. reflexivity.
Qed.

Lemma save_to_csv_fails (w : world) (m : machine) (df : dataframe) (e : exn) :
  open_for_write w (target_path (self m)) = Some e ->
  save_to_csv w df m =
    ("Error saving data to file: " +:+ exn_str e,
     {| self := set_file_name (target_path (self m)) (self m);
        disk := disk m;
        log := log m ++ [EvToCsv (target_path (self m))] |}).
Proof.
  intros Hw. open_machine m. unfold target_path in *. run_monad.
  destruct fname as [n|]; cbn in *.
  - destruct (str_truthy n) eqn:Hn; cbn in *; rewrite ?Hn; cbn; rewrite Hw; reflexivity.
  - rewrite Hw. reflexivity.
Qed.

(** A plain label is written as it is. *)
Lemma csv_field_plain (c : string) : plain_name c = true -> csv_field c = c.
Proof.
  unfold plain_name, csv_field. intros [_ Hq]%andb_prop.
  apply negb_true_iff in Hq. by rewrite Hq.
Qed.

Lemma map_csv_field_plain (cols : list string) :
  forallb plain_name cols = true -> map csv_field cols = cols.
Proof.
  induction cols as [|c cols IH]; [reflexivity|].
  cbn [forallb]. intros [Hc Hcols]%andb_prop.
  cbn [map]. by rewrite csv_field_plain, IH.
Qed.

(** The header line of plain labels is the labels joined by commas. *)
Lemma csv_line_plain (cols : list string) :
  forallb plain_name cols = true ->
  csv_line cols = join "," cols +:+ String lf "".
Proof.
  intros Hcols. unfold csv_line.
  destruct cols as [|c [|c' cols]].
  - reflexivity.
  - cbn [forallb] in Hcols. apply andb_prop in Hcols as [Hc _].
    rewrite (csv_field_plain c Hc).
    unfold plain_name in Hc. apply andb_prop in Hc as [Hne _].
    unfold str_truthy in Hne. apply negb_true_iff in Hne. by rewrite Hne.
  - by rewrite map_csv_field_plain.
Qed.

Lemma read_records_to_csv_text (df : dataframe) :
  read_records (to_csv_text df) = Some (shown_records df).
Proof.
  unfold read_records, to_csv_text. rewrite read_rows_writerows.
  unfold csv_table, shown_records. by rewrite map_map.
Qed.



(** ** The orchestration *)

(** C5. A call whose [table_name] is absent or empty returns the error
    message at once and leaves the machine as it was: nothing is added to
    the log, so the config file is not opened and the remote service is
    not contacted, and no attribute or file changes. *)
Theorem fetch_and_save_data_without_table
    (w : world) (fs : option (list string)) (fn : option string) (m : machine) :
  fetch_and_save_data w None fs fn m
    = ("Error: Please provide a table name for fetching data first.", m) /\
  fetch_and_save_data w (Some "") fs fn m
    = ("Error: Please provide a table name for fetching data first.", m).
Proof. split; reflexivity. Qed.

(** The query text, field by field. *)
Lemma join_field_list_text (f : string) (rest : list string) :
  join ", " (f :: rest) = field_list_text f rest.
Proof.
  unfold field_list_text. revert f.
  induction rest as [|g rest IH]; intros f.
  - cbn. by rewrite append_empty_r.
  - rewrite join_cons, IH. reflexivity.
Qed.

Lemma build_query_select_text (f : string) (rest : list string) (t : string) :
  build_query (f :: rest) t = select_text f rest t.
Proof.
  unfold build_query, select_text. by rewrite join_field_list_text.
Qed.

(** C8. With a non-empty field list [f :: rest] and table [t], the query
    text is exactly SELECT, the fields in order separated by a comma and a
    space, FROM, and [t], with nothing after it; and this text is what
    [fetch_data] sends, in its one query call. *)
Theorem fetch_data_query_text
    (w : world) (m : machine) (t f : string) (rest : list string) (h : handle) :
  table_name (self m) = Some t -> str_truthy t = true ->
  fields (self m) = f :: rest ->
  sf (self m) = Some h ->
  build_query (f :: rest) t
    = "SELECT " +:+ field_list_text f rest +:+ " FROM " +:+ t /\
  log (fetch_data w m).2 = log m ++ [EvQuery h (select_text f rest t)].
Proof.
  intros Ht Htt Hf Hsf. split; [apply build_query_select_text|].
  rewrite <- build_query_select_text.
  open_machine m. run_monad. rewrite Htt. cbn.
  destruct (query w h _); reflexivity.
Qed.

Lemma fetch_data_query_text_witness :
  build_query ["Id"; "Name"; "Phone"] "Account" = "SELECT Id, Name, Phone FROM Account" /\
  log (fetch_data Scenario.org_up (Scenario.connected ["Id"; "Name"; "Phone"])).2
    = [EvQuery 7 "SELECT Id, Name, Phone FROM Account"].
Proof.
  exact (fetch_data_query_text Scenario.org_up (Scenario.connected ["Id"; "Name"; "Phone"])
           "Account" "Id" ["Name"; "Phone"] 7 eq_refl eq_refl eq_refl eq_refl).
Defined.



(** [connect_to_salesforce] returns [True] or a message that is not empty. *)
Lemma connect_to_salesforce_returns (w : world) (m : machine) :
  (connect_to_salesforce w m).1 = PBool true \/
  exists e, (connect_to_salesforce w m).1
    = PStr ("Error connecting to Salesforce please check if you have valid credentials: "
            +:+ exn_str e).
Proof.
  run_monad.
  destruct (getattr "uname" _); cbn; [eauto|].
  destruct (getattr "pwd" _); cbn; [eauto|].
  destruct (getattr "sftoken" _); cbn; [eauto|].
  destruct (login w _ _ _ _); cbn; eauto.
Qed.

Lemma connect_to_salesforce_truthy (w : world) (m : machine) :
  truthy (connect_to_salesforce w m).1 = true.
Proof.
  destruct (connect_to_salesforce_returns w m) as [-> | [e ->]]; reflexivity.
Qed.

(** ** The stages in sequence *)

(** [fetch_and_save_data] with a table name, stage by stage. *)
Lemma fetch_and_save_data_stages (w : world) (t : string)
    (fs : option (list string)) (fn : option string) (m : machine) :
  str_truthy t = true ->
  fetch_and_save_data w (Some t) fs fn m =
    let m0 := {| self := with_arguments t fs fn (self m); disk := disk m; log := log m |} in
    let r1 := load_credentials w m0 in
    if opt_truthy r1.1 then (fmt_opt r1.1, r1.2)
    else
      let r2 := connect_to_salesforce w r1.2 in
      if negb (truthy r2.1) then ("Error connecting to Salesforce.", r2.2)
      else
        let r3 := fetch_data w r2.2 in
        match r3.1 with
        | inr frame => save_to_csv w frame r3.2
        | inl message => (message, r3.2)
        end.
Proof.
  intros Ht. unfold fetch_and_save_data, with_arguments.
  cbn [opt_truthy fmt_opt]. rewrite Ht.
  unfold assign, get_self, set_self, ret, bind.
  destruct fs, fn; cbn [self disk log];
    (destruct (load_credentials w _) as [r1 m1]; cbn [fst snd];
     destruct (opt_truthy r1); [reflexivity|];
     destruct (connect_to_salesforce w m1) as [r2 m2]; cbn [fst snd];
     destruct (negb (truthy r2)); [reflexivity|];
     destruct (fetch_data w m2) as [[message|frame] m3]; reflexivity).
Qed.

(** What each stage can return. *)
Lemma load_credentials_returns (w : world) (m : machine) :
  (load_credentials w m).1 = None \/
  exists e, (load_credentials w m).1 = load_credentials_handler e.
Proof.
  run_monad. repeat step; eauto.
Qed.

Lemma fetch_data_returns (w : world) (m : machine) (message : string) :
  (fetch_data w m).1 = inl message ->
  message = "Error: Table name not provided. Please set the table name before fetching data." \/
  (exists e, message = "Error retrieving fields for " +:+ fmt_opt (table_name (self m))
                       +:+ ": " +:+ exn_str e) \/
  (exists e, message = "Error executing query: " +:+ exn_str e).
Proof.
  open_machine m. run_monad. repeat step; intros; simplify_eq; eauto.
Qed.

Lemma save_to_csv_returns (w : world) (df : dataframe) (m : machine) :
  (save_to_csv w df m).1 = "Data saved to " +:+ target_path (self m) \/
  exists e, (save_to_csv w df m).1 = "Error saving data to file: " +:+ exn_str e.
Proof.
  destruct (open_for_write w (target_path (self m))) as [e|] eqn:Hw.
  - right. exists e. by rewrite (save_to_csv_fails w m df e Hw).
  - left. by rewrite (save_to_csv_writes w m df Hw).
Qed.

(** C10. The value [connect_to_salesforce] returns is always true in a
    condition, whatever the machine and the world: the guard of
    [fetch_and_save_data] on it never holds, and [fetch_and_save_data]
    never returns the literal of that branch. *)
Theorem connect_guard_never_taken
    (w : world) (t : option string) (fs : option (list string)) (fn : option string)
    (m : machine) :
  truthy (connect_to_salesforce w m).1 = true /\
  negb (truthy (connect_to_salesforce w m).1) = false /\
  (fetch_and_save_data w t fs fn m).1 <> "Error connecting to Salesforce.".
Proof.
  pose proof (connect_to_salesforce_truthy w) as Htruthy.
  split; [apply Htruthy|]. split; [by rewrite Htruthy|].
  destruct t as [t|]; [|discriminate].
  destruct (str_truthy t) eqn:Ht; cycle 1.
  { unfold fetch_and_save_data. cbn [opt_truthy]. rewrite Ht. discriminate. }
  rewrite (fetch_and_save_data_stages w t fs fn m Ht). cbv zeta.
  set (m0 := {| self := with_arguments t fs fn (self m) |}).
  destruct (load_credentials_returns w m0) as [-> | [e ->]]; cycle 1.
  { destruct e; discriminate. }
  cbn [opt_truthy]. rewrite Htruthy. cbn [negb].
  destruct (fetch_data w _).1 as [message|frame] eqn:Hfetch.
  - cbn [fst].
    apply fetch_data_returns in Hfetch as [-> | [[e ->] | [e ->]]]; discriminate.
  - destruct (save_to_csv_returns w frame (fetch_data w (connect_to_salesforce w (load_credentials w m0).2).2).2)
      as [-> | [e ->]]; discriminate.
Qed.

(** ** Loading the credentials *)

(** A key that can be read tells that the group is a mapping. *)
Lemma credential_succeeds (config : yaml) (k : string) :
  succeeds (credential config k) = true ->
  exists d v, subscript config "salesforce" = inr (YDict d) /\ assoc k d = Some v.
Proof.
  unfold credential. destruct (subscript config "salesforce") as [e|group]; [discriminate|].
  destruct group as [| | | | |d]; unfold subscript; try discriminate.
  destruct (assoc k d) as [v|] eqn:Hv; [|discriminate].
  intros _. by exists d, v.
Qed.

(** The result of [load_credentials] on a config whose group is a mapping:
    the first key that is missing, in the order of the reads, is named. *)
Lemma load_credentials_on_mapping (w : world) (m : machine) (config : yaml)
    (d : list (string * yaml)) :
  open_and_load w (config_path (self m)) = inr config ->
  subscript config "salesforce" = inr (YDict d) ->
  (load_credentials w m).1 =
    match assoc "uname" d, assoc "pwd" d, assoc "sftoken" d with
    | None, _, _ => Some "Error: Missing required key in config file: 'uname'"
    | Some _, None, _ => Some "Error: Missing required key in config file: 'pwd'"
    | Some _, Some _, None => Some "Error: Missing required key in config file: 'sftoken'"
    | Some _, Some _, Some _ => None
    end.
Proof.
  intros Hopen Hgroup. open_machine m. run_monad.
  rewrite Hopen. cbn. rewrite !Hgroup. cbn.
  unfold subscript.
  destruct (assoc "uname" d); cbn; [|reflexivity].
  destruct (assoc "pwd" d); cbn; [|reflexivity].
  destruct (assoc "sftoken" d); reflexivity.
Qed.

(** C6. When the config file parses and exactly one of the three keys
    cannot be read from its [salesforce] group while the other two can,
    [load_credentials] returns the missing-key message, and the message
    names that key. *)
Theorem load_credentials_names_missing_key
    (w : world) (m : machine) (config : yaml) (k : string) :
  open_and_load w (config_path (self m)) = inr config ->
  k ∈ required_keys ->
  succeeds (credential config k) = false ->
  (forall k', k' ∈ required_keys -> k' <> k -> succeeds (credential config k') = true) ->
  (load_credentials w m).1
    = Some ("Error: Missing required key in config file: '" +:+ k +:+ "'").
Proof.
  intros Hopen Hk Hmissing Hothers.
  assert (exists d, subscript config "salesforce" = inr (YDict d)) as [d Hgroup].
  { destruct (decide (k = "uname")) as [->|Hne].
    - destruct (credential_succeeds config "pwd") as (d & _ & Hd & _); [|by eauto].
      apply Hothers; [in_keys | discriminate].
    - destruct (credential_succeeds config "uname") as (d & _ & Hd & _); [|by eauto].
      apply Hothers; [in_keys | congruence]. }
  assert (forall k', k' ∈ required_keys -> k' <> k -> exists v, assoc k' d = Some v) as Hpresent.
  { intros k' Hin Hne.
    destruct (credential_succeeds config k' (Hothers k' Hin Hne)) as (d' & v & Hd' & Hv).
    rewrite Hgroup in Hd'. simplify_eq. eauto. }
  assert (assoc k d = None) as Habsent.
  { unfold credential in Hmissing. rewrite Hgroup in Hmissing.
    unfold subscript in Hmissing. by destruct (assoc k d). }
  rewrite (load_credentials_on_mapping w m config d Hopen Hgroup).
  unfold required_keys in Hk.
  apply elem_of_cons in Hk as [-> | Hk]; [by rewrite Habsent|].
  apply elem_of_cons in Hk as [-> | Hk].
  { destruct (Hpresent "uname") as [v ->]; [in_keys | discriminate |].
    by rewrite Habsent. }
  apply elem_of_cons in Hk as [-> | Hk]; [|by apply elem_of_nil in Hk].
  destruct (Hpresent "uname") as [v ->]; [in_keys | discriminate |].
  destruct (Hpresent "pwd") as [v' ->]; [in_keys | discriminate |].
  by rewrite Habsent.
Qed.

Lemma load_credentials_names_missing_key_witness :
  (load_credentials Scenario.org_no_pwd Scenario.fresh).1
    = Some "Error: Missing required key in config file: 'pwd'".
Proof.
  apply (load_credentials_names_missing_key Scenario.org_no_pwd Scenario.fresh
           Scenario.config_without_pwd "pwd").
  - reflexivity.
  - in_keys.
  - reflexivity.
  - intros k' Hin Hne. unfold required_keys in Hin.
    repeat (apply elem_of_cons in Hin as [-> | Hin]); try reflexivity;
      [congruence | by apply elem_of_nil in Hin].
Defined.

(** ** What a run reads and leaves in the instance *)

(** Each stage keeps the request of the instance and adds to the log. *)
Lemma load_credentials_frame (w : world) (m : machine) :
  exists s',
    (load_credentials w m).2
      = {| self := s'; disk := disk m;
           log := log m ++ [EvOpenConfig (config_path (self m))] |} /\
    request s' = request (self m) /\ sf s' = sf (self m).
Proof.
  open_machine m. run_monad. repeat step; eexists; (split; [reflexivity|]); split; reflexivity.
Qed.

Lemma connect_to_salesforce_frame (w : world) (m : machine) :
  exists s' evs,
    (connect_to_salesforce w m).2
      = {| self := s'; disk := disk m; log := log m ++ evs |} /\
    request s' = request (self m) /\ csv_paths evs = [] /\ queries evs = [].
Proof.
  open_machine m. run_monad.
  repeat step;
    first [ by eexists _, [_]; split; [reflexivity|]
          | by eexists _, []; rewrite app_nil_r ].
Qed.

Lemma fetch_data_frame (w : world) (m : machine) :
  exists evs,
    (fetch_data w m).2 = {| self := self m; disk := disk m; log := log m ++ evs |} /\
    csv_paths evs = [] /\
    forall q, q ∈ queries evs ->
      exists l, q = build_query l (fmt_opt (table_name (self m))) /\
                (fields (self m) <> [] -> l = fields (self m)).
Proof.
  open_machine m. run_monad.
  repeat step; rewrite <- ?app_assoc;
    first [ eexists; split; [reflexivity|]
          | exists []; rewrite app_nil_r; split; [reflexivity|] ];
    (split; [reflexivity|]); cbn; intros q Hq;
    repeat (apply elem_of_cons in Hq as [-> | Hq]);
    try (by apply elem_of_nil in Hq);
    eexists; (split; [reflexivity|]); intros Hne;
    first [ reflexivity
          | match goal with
            | H : negb (list_truthy ?l) = true |- _ => destruct l; [congruence | discriminate]
            end ].
Qed.

Lemma request_with_arguments (t : string) (fs : option (list string))
    (fn : option string) (f : fetcher) :
  request (with_arguments t fs fn f)
  = (Some t,
     match fs with Some l => l | None => fields f end,
     match fn with Some n => Some n | None => file_name f end).
Proof. by destruct fs, fn. Qed.

Lemma request_inv (f g : fetcher) :
  request f = request g ->
  table_name f = table_name g /\ fields f = fields g /\ file_name f = file_name g.
Proof. unfold request. intros [= -> -> ->]. done. Qed.

(** C4, as the code has it. Whatever an earlier run left in the instance,
    a run called with table name [t] queries table [t]; its field list is
    the argument [fs] when one is given, and the list the instance already
    held when [fs] is omitted; when a file name [n] is given the CSV file
    is written at [n], or at [t] followed by [.csv] when [n] is empty. *)
Theorem run_request_from_arguments (w : world) (m : machine) (t : string)
    (fs : option (list string)) (fn : option string) :
  str_truthy t = true ->
  table_name (self (fetch_and_save_data w (Some t) fs fn m).2) = Some t /\
  fields (self (fetch_and_save_data w (Some t) fs fn m).2)
    = match fs with Some l => l | None => fields (self m) end /\
  exists evs,
    log (fetch_and_save_data w (Some t) fs fn m).2 = log m ++ evs /\
    (forall q, q ∈ queries evs ->
       exists l, q = build_query l t /\
         (match fs with Some l' => l' | None => fields (self m) end <> [] ->
          l = match fs with Some l' => l' | None => fields (self m) end)) /\
    (forall n, fn = Some n -> forall p, p ∈ csv_paths evs ->
       p = if str_truthy n then n else t +:+ ".csv").
Proof.
  intros Ht. rewrite (fetch_and_save_data_stages w t fs fn m Ht). cbv zeta.
  set (m0 := {| self := with_arguments t fs fn (self m); disk := disk m; log := log m |}).
  pose proof (request_with_arguments t fs fn (self m)) as Hreq0.
  (* load_credentials *)
  pose proof (load_credentials_frame w m0) as (s1 & Hm1 & Hreq1 & _).
  destruct (load_credentials w m0) as [r1 m1]. cbn [fst snd] in *. subst m1.
  change (self m0) with (with_arguments t fs fn (self m)) in *.
  change (disk m0) with (disk m) in *. change (log m0) with (log m) in *.
  clearbody m0.
  rewrite Hreq0 in Hreq1. unfold request in Hreq1. injection Hreq1 as Ht1 Hf1 Hn1.
  set (ev1 := EvOpenConfig (config_path (with_arguments t fs fn (self m)))).
  destruct (opt_truthy r1).
  { cbn [snd self log].
    split; [done|]. split; [done|].
    exists [ev1]. split; [reflexivity|].
    split; intros; cbn in *; by exfalso; eapply elem_of_nil. }
  (* connect_to_salesforce *)
  set (m1 := {| self := s1 |}).
  pose proof (connect_to_salesforce_frame w m1) as (s2 & evs2 & Hm2 & Hreq2 & Hcsv2 & Hq2).
  destruct (connect_to_salesforce w m1) as [r2 m2]. cbn [fst snd] in *. subst m2.
  cbn [self disk log m1] in *. clearbody m1.
  apply request_inv in Hreq2 as (Ht2 & Hf2 & Hn2).
  rewrite Ht1 in Ht2. rewrite Hf1 in Hf2. rewrite Hn1 in Hn2.
  destruct (negb (truthy r2)).
  { cbn [snd self log].
    split; [done|]. split; [done|].
    exists (ev1 :: evs2). split; [by rewrite <- app_assoc|].
    unfold queries, csv_paths in *. cbn [omap list_omap ev1]. rewrite Hq2, Hcsv2.
    split; intros; by exfalso; eapply elem_of_nil. }
  (* fetch_data *)
  set (m2 := {| self := s2 |}).
  pose proof (fetch_data_frame w m2) as (evs3 & Hm3 & Hcsv3 & Hq3).
  destruct (fetch_data w m2) as [r3 m3]. cbn [fst snd] in *. subst m3.
  cbn [self disk log m2] in *. clearbody m2.
  rewrite Ht2, Hf2 in Hq3. cbn [fmt_opt] in Hq3.
  destruct r3 as [message|frame].
  { cbn [snd self log].
    split; [done|]. split; [done|].
    exists (ev1 :: evs2 ++ evs3). split; [by rewrite <- !app_assoc|].
    unfold queries, csv_paths in *. cbn [omap list_omap ev1]. rewrite !omap_app.
    rewrite Hq2, Hcsv2, Hcsv3. cbn [app].
    split; [exact Hq3|]. intros; by exfalso; eapply elem_of_nil. }
  (* save_to_csv *)
  set (m3 := {| self := s2 |}).
  assert ((save_to_csv w frame m3).2.(self) = set_file_name (target_path s2) s2 /\
          (save_to_csv w frame m3).2.(log) = log m3 ++ [EvToCsv (target_path s2)]) as [Hs4 Hl4].
  { destruct (open_for_write w (target_path (self m3))) as [e|] eqn:Hw.
    - by rewrite (save_to_csv_fails w m3 frame e Hw).
    - by rewrite (save_to_csv_writes w m3 frame Hw). }
  rewrite Hs4, Hl4. cbn [table_name fields set_file_name log m3].
  split; [done|]. split; [done|].
  exists (ev1 :: evs2 ++ evs3 ++ [EvToCsv (target_path s2)]).
  split; [by rewrite <- !app_assoc|].
  unfold queries, csv_paths in *. cbn [omap list_omap ev1]. rewrite !omap_app.
  rewrite Hq2, Hcsv2, Hcsv3. cbn [app omap list_omap].
  split; [by rewrite app_nil_r|].
  intros n -> p Hp. apply elem_of_cons in Hp as [-> | Hp]; [|by apply elem_of_nil in Hp].
  unfold target_path. rewrite Hn2, Ht2. cbn [opt_truthy fmt_opt].
  reflexivity.
Qed.

Lemma run_request_from_arguments_witness :
  table_name (self (fetch_and_save_data Scenario.org_up (Some "Contact") (Some ["Name"])
                      (Some "out.csv") Scenario.after_account).2) = Some "Contact" /\
  fields (self (fetch_and_save_data Scenario.org_up (Some "Contact") (Some ["Name"])
                  (Some "out.csv") Scenario.after_account).2) = ["Name"] /\
  exists evs,
    log (fetch_and_save_data Scenario.org_up (Some "Contact") (Some ["Name"])
           (Some "out.csv") Scenario.after_account).2 = log Scenario.after_account ++ evs /\
    (forall q, q ∈ queries evs ->
       exists l, q = build_query l "Contact" /\ (["Name"] <> [] -> l = ["Name"])) /\
    (forall n, Some "out.csv" = Some n -> forall p, p ∈ csv_paths evs ->
       p = if str_truthy n then n else "Contact" +:+ ".csv").
Proof.
  exact (run_request_from_arguments Scenario.org_up Scenario.after_account "Contact"
           (Some ["Name"]) (Some "out.csv") eq_refl).
Defined.

(** C4 as stated fails: the same call, [fetch_and_save_data('Contact')]
    with no fields and no file name, in the same world, queries other
    fields and writes another file on an instance that has run
    [fetch_and_save_data('Account', ['Id'])] before than on a new one.
    (The log of the reused instance starts with the events of its first
    run.) *)
Lemma second_run_inherits_first_request :
  request (self (fetch_and_save_data Scenario.org_up (Some "Contact") None None
                   Scenario.after_account).2)
    = (Some "Contact", ["Id"], Some "Account.csv") /\
  request (self (fetch_and_save_data Scenario.org_up (Some "Contact") None None
                   Scenario.fresh).2)
    = (Some "Contact", [], Some "Contact.csv") /\
  queries (log (fetch_and_save_data Scenario.org_up (Some "Contact") None None
                  Scenario.after_account).2)
    = ["SELECT Id FROM Account"; "SELECT Id FROM Contact"] /\
  queries (log (fetch_and_save_data Scenario.org_up (Some "Contact") None None
                  Scenario.fresh).2)
    = ["SELECT Id, Name FROM Contact"] /\
  csv_paths (log (fetch_and_save_data Scenario.org_up (Some "Contact") None None
                    Scenario.after_account).2)
    = ["Account.csv"; "Account.csv"] /\
  csv_paths (log (fetch_and_save_data Scenario.org_up (Some "Contact") None None
                    Scenario.fresh).2)
    = ["Contact.csv"].
Proof. repeat split; vm_compute; reflexivity. Qed.

(** ** The table of a fetch *)

Lemma select_map {A B : Type} (f : A -> B) (mask : list bool) (l : list A) :
  select mask (map f l) = map f (select mask l).
Proof.
  revert l. induction mask as [|b mask IH]; intros [|x l]; cbn; try reflexivity.
  destruct b; cbn; by rewrite IH.
Qed.

(** Every row of the table of a response is its record, read at the
    columns of the table. *)
Lemma rows_drop_DataFrame (lbl : string) (rs : list record) :
  rows (drop lbl (DataFrame rs))
  = map (fun r => map (cell_of r) (columns (drop lbl (DataFrame rs)))) rs.
Proof.
  unfold drop, DataFrame. cbn [rows columns].
  rewrite map_map. apply map_ext. intros r. apply select_map.
Qed.

Lemma add_key_keeps (cols : list string) (k k' : string) :
  k' ∈ cols -> k' ∈ add_key cols k.
Proof.
  unfold add_key. destruct (existsb _ cols); [done|].
  intros. apply elem_of_app. by left.
Qed.

Lemma add_key_adds (cols : list string) (k : string) : k ∈ add_key cols k.
Proof.
  unfold add_key. destruct (existsb (String.eqb k) cols) eqn:Hex.
  - apply existsb_exists in Hex as (k' & Hin & Heq).
    apply String.eqb_eq in Heq as <-. by apply list_elem_of_In.
  - apply elem_of_app. right. constructor.
Qed.

Lemma foldl_add_key_keeps (ks cols : list string) (k : string) :
  k ∈ cols -> k ∈ foldl add_key cols ks.
Proof.
  revert cols. induction ks as [|k' ks IH]; intros cols Hin; [done|].
  cbn. apply IH. by apply add_key_keeps.
Qed.

Lemma foldl_add_key_adds (ks cols : list string) (k : string) :
  k ∈ ks -> k ∈ foldl add_key cols ks.
Proof.
  revert cols. induction ks as [|k' ks IH]; intros cols Hin.
  - by apply elem_of_nil in Hin.
  - cbn. apply elem_of_cons in Hin as [-> | Hin].
    + apply foldl_add_key_keeps, add_key_adds.
    + by apply IH.
Qed.

(** No field of a record is lost: each one has its column. *)
Lemma union_keys_complete (rs : list record) (r : record) (k : string) :
  r ∈ rs -> k ∈ map fst r -> k ∈ union_keys rs.
Proof.
  intros Hr Hk. unfold union_keys. apply foldl_add_key_adds.
  apply list_elem_of_In, in_concat. exists (map fst r).
  split; [by apply in_map, list_elem_of_In | by apply list_elem_of_In].
Qed.

Lemma select_keeps (lbl : string) (cols : list string) (k : string) :
  k ∈ cols -> k <> lbl ->
  k ∈ select (map (fun c => negb (String.eqb c lbl)) cols) cols.
Proof.
  intros Hin Hne. induction cols as [|c cols IH]; [by apply elem_of_nil in Hin|].
  cbn. apply elem_of_cons in Hin as [<- | Hin].
  - apply String.eqb_neq in Hne. rewrite Hne. cbn. constructor.
  - destruct (negb (String.eqb c lbl)); [apply list_elem_of_further|]; by apply IH.
Qed.

Lemma select_drops (lbl : string) (cols : list string) :
  lbl ∉ select (map (fun c => negb (String.eqb c lbl)) cols) cols.
Proof.
  induction cols as [|c cols IH]; cbn; [apply not_elem_of_nil|].
  destruct (String.eqb c lbl) eqn:Hc; cbn; [done|].
  apply String.eqb_neq in Hc. apply not_elem_of_cons. split; [congruence | done].
Qed.




(** ** A refused login *)

(** C1 fails on the code. On a new instance with a good config file, when
    the login is refused, [connect_to_salesforce] returns its message, yet
    the run goes on to [fetch_data] and returns the message of that stage.
    On an instance that holds the connection of an earlier run, the run
    then queries over the old connection and writes the file. *)
Lemma refused_login_does_not_stop_the_run :
  (fetch_and_save_data Scenario.org_down (Some "Account") (Some ["Id"]) None
     Scenario.fresh).1
    = "Error executing query: 'NoneType' object has no attribute 'query'" /\
  log (fetch_and_save_data Scenario.org_down (Some "Account") (Some ["Id"]) None
         Scenario.fresh).2
    = [EvOpenConfig "config.yml";
       EvLogin (YStr "ada@example.com") (YStr "s3cret") (YStr "tok") "test"] /\
  (fetch_and_save_data Scenario.org_down (Some "Account") (Some ["Id"]) None
     Scenario.after_account).1
    = "Data saved to Account.csv" /\
  log (fetch_and_save_data Scenario.org_down (Some "Account") (Some ["Id"]) None
         Scenario.after_account).2
    = log Scenario.after_account ++
      [EvOpenConfig "config.yml";
       EvLogin (YStr "ada@example.com") (YStr "s3cret") (YStr "tok") "test";
       EvQuery 7 "SELECT Id FROM Account";
       EvToCsv "Account.csv"].
Proof. repeat split; vm_compute; reflexivity. Qed.

(** C2 fails on the code. With the login refused, the message returned
    on a new instance does not hold the words of the connection error; on
    an instance that holds an earlier connection, the run reports success
    and writes the output file. *)
Lemma refused_login_message_and_file :
  contains "connecting to Salesforce"
    (fetch_and_save_data Scenario.org_down (Some "Account") (Some ["Id"]) None
       Scenario.fresh).1 = false /\
  contains "connecting to Salesforce"
    (fetch_and_save_data Scenario.org_down (Some "Account") (Some []) None
       Scenario.fresh).1 = false /\
  disk Scenario.after_account !! "again.csv" = None /\
  (fetch_and_save_data Scenario.org_down (Some "Account") (Some ["Id"]) (Some "again.csv")
     Scenario.after_account).1 = "Data saved to again.csv" /\
  disk (fetch_and_save_data Scenario.org_down (Some "Account") (Some ["Id"])
          (Some "again.csv") Scenario.after_account).2 !! "again.csv"
    = Some (to_csv_text
              {| columns := ["Id"; "Name"];
                 rows := [[VStr "001"; VStr "Acme, Inc"]; [VStr "002"; VNull]] |}).
Proof. repeat split; vm_compute; reflexivity. Qed.

(** ** The stages that do stop the run *)

(** An error of [load_credentials] ends the run with that message, after
    the one access to the config file. *)
Lemma load_error_stops_the_run (w : world) (m : machine) (t : string)
    (fs : option (list string)) (fn : option string) (message : string) :
  str_truthy t = true ->
  let m0 := {| self := with_arguments t fs fn (self m); disk := disk m; log := log m |} in
  (load_credentials w m0).1 = Some message ->
  str_truthy message = true ->
  (fetch_and_save_data w (Some t) fs fn m).1 = message /\
  disk (fetch_and_save_data w (Some t) fs fn m).2 = disk m /\
  log (fetch_and_save_data w (Some t) fs fn m).2
    = log m ++ [EvOpenConfig (config_path (self m))].
Proof.
  intros Ht m0 Hload Hmsg.
  rewrite (fetch_and_save_data_stages w t fs fn m Ht). cbv zeta. fold m0.
  rewrite Hload. cbn [opt_truthy fmt_opt]. rewrite Hmsg. cbn [fst snd].
  destruct (load_credentials_frame w m0) as (s1 & -> & _). cbn [disk log self m0].
  by destruct fs, fn.
Qed.

(** An error of [fetch_data] is what the run returns, and nothing is
    written. *)
Lemma fetch_error_is_returned (w : world) (m : machine) (t : string)
    (fs : option (list string)) (fn : option string) (message : string) :
  str_truthy t = true ->
  let m0 := {| self := with_arguments t fs fn (self m); disk := disk m; log := log m |} in
  let m2 := (connect_to_salesforce w (load_credentials w m0).2).2 in
  (load_credentials w m0).1 = None ->
  (fetch_data w m2).1 = inl message ->
  (fetch_and_save_data w (Some t) fs fn m).1 = message /\
  disk (fetch_and_save_data w (Some t) fs fn m).2 = disk m /\
  csv_paths (log (fetch_and_save_data w (Some t) fs fn m).2) = csv_paths (log m).
Proof.
  intros Ht m0 m2 Hload Hfetch.
  rewrite (fetch_and_save_data_stages w t fs fn m Ht). cbv zeta. fold m0.
  rewrite Hload. cbn [opt_truthy].
  rewrite connect_to_salesforce_truthy. cbn [negb]. fold m2. rewrite Hfetch. cbn [fst snd].
  all: split; [reflexivity|].
  all: destruct (fetch_data_frame w m2) as (evs3 & -> & Hcsv3 & _); cbn [disk log].
  all: subst m2.
  all: destruct (connect_to_salesforce_frame w (load_credentials w m0).2)
         as (s2 & evs2 & -> & _ & Hcsv2 & _); cbn [disk log].
  all: destruct (load_credentials_frame w m0) as (s1 & -> & _); cbn [disk log self m0].
  all: split; [reflexivity|].
  all: unfold csv_paths in *.
  all: rewrite !omap_app, Hcsv2, Hcsv3; cbn; by rewrite !app_nil_r.
Qed.

(** Outside the reach of C6: a config file without the [salesforce] group
    gives the missing-key message for [salesforce]; a group that is not a
    mapping gives the general message. *)
Example load_credentials_without_group :
  (load_credentials (Scenario.org_with_config (YDict [])) Scenario.fresh).1
    = Some "Error: Missing required key in config file: 'salesforce'".
Proof. reflexivity. Qed.

Example load_credentials_null_group :
  (load_credentials (Scenario.org_with_config (YDict [("salesforce", YNull)]))
     Scenario.fresh).1
    = Some "Error loading credentials: 'NoneType' object is not subscriptable".
Proof. reflexivity. Qed.

(** * Further properties of the methods *)

(** ** [load_credentials] *)

Lemma credential_inv (config : yaml) (k : string) (v : yaml) :
  credential config k = inr v ->
  exists d, subscript config "salesforce" = inr (YDict d) /\ assoc k d = Some v.
Proof.
  unfold credential. destruct (subscript config "salesforce") as [e|group]; [discriminate|].
  destruct group as [| | | | |d]; unfold subscript; try discriminate.
  destruct (assoc k d) as [v'|] eqn:Hv; [|discriminate].
  intros [= ->]. by exists d.
Qed.

(** [load_credentials] when the three keys can be read. *)
Lemma load_credentials_ok_eq
    (w : world) (m : machine) (config u p t : yaml) :
  open_and_load w (config_path (self m)) = inr config ->
  credential config "uname" = inr u ->
  credential config "pwd" = inr p ->
  credential config "sftoken" = inr t ->
  load_credentials w m =
    (None, {| self := loaded u p t (self m); disk := disk m;
              log := log m ++ [EvOpenConfig (config_path (self m))] |}).
Proof.
  intros Hopen Hu Hp Ht.
  apply credential_inv in Hu as (d & Hgroup & Hu).
  apply credential_inv in Hp as (d' & Hgroup' & Hp).
  apply credential_inv in Ht as (d'' & Hgroup'' & Ht).
  rewrite Hgroup in Hgroup', Hgroup''. simplify_eq.
  open_machine m. run_monad. rewrite Hopen. cbn. rewrite !Hgroup. cbn.
  unfold subscript. rewrite Hu. cbn. rewrite Hp. cbn. rewrite Ht. reflexivity.
Qed.

(** X1. When the config file parses and the three keys can be read,
    [load_credentials] returns [None], stores the three values as they are
    in the file, changes no other attribute and no file, and opens the
    config file once. *)
Theorem load_credentials_stores_values
    (w : world) (m : machine) (config u p t : yaml) :
  open_and_load w (config_path (self m)) = inr config ->
  credential config "uname" = inr u ->
  credential config "pwd" = inr p ->
  credential config "sftoken" = inr t ->
  (load_credentials w m).1 = None /\
  uname (self (load_credentials w m).2) = Some u /\
  pwd (self (load_credentials w m).2) = Some p /\
  sftoken (self (load_credentials w m).2) = Some t /\
  request (self (load_credentials w m).2) = request (self m) /\
  sf (self (load_credentials w m).2) = sf (self m) /\
  config_path (self (load_credentials w m).2) = config_path (self m) /\
  domain (self (load_credentials w m).2) = domain (self m) /\
  disk (load_credentials w m).2 = disk m /\
  log (load_credentials w m).2 = log m ++ [EvOpenConfig (config_path (self m))].
Proof.
  intros Hopen Hu Hp Ht.
  by rewrite (load_credentials_ok_eq w m config u p t Hopen Hu Hp Ht).
Qed.

Lemma load_credentials_stores_values_witness :
  (load_credentials Scenario.org_up Scenario.after_account).1 = None /\
  uname (self (load_credentials Scenario.org_up Scenario.after_account).2)
    = Some (YStr "ada@example.com") /\
  pwd (self (load_credentials Scenario.org_up Scenario.after_account).2)
    = Some (YStr "s3cret") /\
  sftoken (self (load_credentials Scenario.org_up Scenario.after_account).2)
    = Some (YStr "tok") /\
  request (self (load_credentials Scenario.org_up Scenario.after_account).2)
    = request (self Scenario.after_account) /\
  sf (self (load_credentials Scenario.org_up Scenario.after_account).2)
    = sf (self Scenario.after_account) /\
  config_path (self (load_credentials Scenario.org_up Scenario.after_account).2)
    = config_path (self Scenario.after_account) /\
  domain (self (load_credentials Scenario.org_up Scenario.after_account).2)
    = domain (self Scenario.after_account) /\
  disk (load_credentials Scenario.org_up Scenario.after_account).2
    = disk Scenario.after_account /\
  log (load_credentials Scenario.org_up Scenario.after_account).2
    = log Scenario.after_account ++ [EvOpenConfig (config_path (self Scenario.after_account))].
Proof.
  exact (load_credentials_stores_values Scenario.org_up Scenario.after_account
           Scenario.good_config (YStr "ada@example.com") (YStr "s3cret") (YStr "tok")
           eq_refl eq_refl eq_refl eq_refl).
Defined.

(** X2. When the config file cannot be opened or parsed, the message is
    chosen by the class of the exception (file not found, YAML error, any
    other), it carries the text of the exception, and no attribute of the
    instance is assigned. *)
Theorem load_credentials_unreadable_file (w : world) (m : machine) (e : exn) :
  open_and_load w (config_path (self m)) = inl e ->
  load_credentials w m =
    (load_credentials_handler e,
     {| self := self m; disk := disk m;
        log := log m ++ [EvOpenConfig (config_path (self m))] |}) /\
  (forall msg, e = FileNotFoundError msg ->
     load_credentials_handler e = Some ("Error: Config file not found: " +:+ msg)) /\
  (forall msg, e = YAMLError msg ->
     load_credentials_handler e = Some ("Error: YAML parsing error: " +:+ msg)) /\
  (forall msg, e = OtherError msg ->
     load_credentials_handler e = Some ("Error loading credentials: " +:+ msg)).
Proof.
  intros Hopen. split.
  - open_machine m. run_monad. by rewrite Hopen.
  - repeat split; intros msg ->; reflexivity.
Qed.

Lemma load_credentials_unreadable_file_witness :
  load_credentials Faults.org_no_file Scenario.fresh =
    (load_credentials_handler
       (FileNotFoundError "[Errno 2] No such file or directory: 'config.yml'"),
     {| self := self Scenario.fresh; disk := disk Scenario.fresh;
        log := log Scenario.fresh ++ [EvOpenConfig (config_path (self Scenario.fresh))] |}).
Proof.
  exact (proj1 (load_credentials_unreadable_file Faults.org_no_file Scenario.fresh
                  (FileNotFoundError "[Errno 2] No such file or directory: 'config.yml'")
                  eq_refl)).
Defined.

(** X3. A load that fails on a later key keeps the assignments made
    before it: when [uname] can be read and [pwd] is missing from the
    group, the call returns the missing-key message for [pwd], [self.uname]
    already holds the new value, and [self.pwd] and [self.sftoken] are as
    they were. *)
Theorem load_credentials_half_loaded
    (w : world) (m : machine) (config u : yaml) (d : list (string * yaml)) :
  open_and_load w (config_path (self m)) = inr config ->
  subscript config "salesforce" = inr (YDict d) ->
  assoc "uname" d = Some u ->
  assoc "pwd" d = None ->
  load_credentials w m =
    (Some "Error: Missing required key in config file: 'pwd'",
     {| self := set_uname u (self m); disk := disk m;
        log := log m ++ [EvOpenConfig (config_path (self m))] |}).
Proof.
  intros Hopen Hgroup Hu Hp.
  open_machine m. run_monad. rewrite Hopen. cbn. rewrite !Hgroup. cbn.
  unfold subscript. rewrite Hu. cbn. rewrite Hp. reflexivity.
Qed.

Lemma load_credentials_half_loaded_witness :
  load_credentials Scenario.org_no_pwd Scenario.after_account =
    (Some "Error: Missing required key in config file: 'pwd'",
     {| self := set_uname (YStr "ada@example.com") (self Scenario.after_account);
        disk := disk Scenario.after_account;
        log := log Scenario.after_account
               ++ [EvOpenConfig (config_path (self Scenario.after_account))] |}).
Proof.
  exact (load_credentials_half_loaded Scenario.org_no_pwd Scenario.after_account
           Scenario.config_without_pwd (YStr "ada@example.com")
           [("uname", YStr "ada@example.com"); ("sftoken", YStr "tok")]
           eq_refl eq_refl eq_refl eq_refl).
Defined.

(** Every message of [load_credentials] is true in a condition. *)
Lemma load_credentials_handler_truthy (e : exn) :
  opt_truthy (load_credentials_handler e) = true.
Proof. by destruct e. Qed.

(** ** [connect_to_salesforce] *)

(** [connect_to_salesforce] when the login is accepted, and when it is
    refused. *)
Lemma connect_accepted_eq
    (w : world) (m : machine) (u p t : yaml) (h : handle) :
  uname (self m) = Some u -> pwd (self m) = Some p -> sftoken (self m) = Some t ->
  login w u p t (domain (self m)) = inr h ->
  connect_to_salesforce w m =
    (PBool true,
     {| self := set_sf h (self m); disk := disk m;
        log := log m ++ [EvLogin u p t (domain (self m))] |}).
Proof.
  intros Hu Hp Ht Hlogin. open_machine m. run_monad. by rewrite Hlogin.
Qed.

Lemma connect_refused_eq
    (w : world) (m : machine) (u p t : yaml) (e : exn) :
  uname (self m) = Some u -> pwd (self m) = Some p -> sftoken (self m) = Some t ->
  login w u p t (domain (self m)) = inl e ->
  connect_to_salesforce w m =
    (PStr ("Error connecting to Salesforce please check if you have valid credentials: "
           +:+ exn_str e),
     {| self := self m; disk := disk m;
        log := log m ++ [EvLogin u p t (domain (self m))] |}).
Proof.
  intros Hu Hp Ht Hlogin. open_machine m. run_monad. by rewrite Hlogin.
Qed.



(** X5. When the login is refused, [connect_to_salesforce] returns the
    connection message with the text of the exception, and [self.sf] is
    not assigned: the instance is as it was and keeps the connection it
    held before, if any. *)
Theorem connect_to_salesforce_refused
    (w : world) (m : machine) (u p t : yaml) (e : exn) :
  uname (self m) = Some u -> pwd (self m) = Some p -> sftoken (self m) = Some t ->
  login w u p t (domain (self m)) = inl e ->
  (connect_to_salesforce w m).1 =
    PStr ("Error connecting to Salesforce please check if you have valid credentials: "
          +:+ exn_str e) /\
  self (connect_to_salesforce w m).2 = self m /\
  sf (self (connect_to_salesforce w m).2) = sf (self m) /\
  disk (connect_to_salesforce w m).2 = disk m /\
  log (connect_to_salesforce w m).2 = log m ++ [EvLogin u p t (domain (self m))].
Proof.
  intros Hu Hp Ht Hlogin. by rewrite (connect_refused_eq w m u p t e Hu Hp Ht Hlogin).
Qed.

Lemma connect_to_salesforce_refused_witness :
  (connect_to_salesforce Scenario.org_down (Scenario.connected [])).1 =
    PStr ("Error connecting to Salesforce please check if you have valid credentials: "
          +:+ exn_str (OtherError "INVALID_LOGIN: Invalid username, password, security token")) /\
  self (connect_to_salesforce Scenario.org_down (Scenario.connected [])).2
    = self (Scenario.connected []) /\
  sf (self (connect_to_salesforce Scenario.org_down (Scenario.connected [])).2)
    = sf (self (Scenario.connected [])) /\
  disk (connect_to_salesforce Scenario.org_down (Scenario.connected [])).2
    = disk (Scenario.connected []) /\
  log (connect_to_salesforce Scenario.org_down (Scenario.connected [])).2
    = log (Scenario.connected [])
      ++ [EvLogin (YStr "ada@example.com") (YStr "s3cret") (YStr "tok")
            (domain (self (Scenario.connected [])))].
Proof.
  exact (connect_to_salesforce_refused Scenario.org_down (Scenario.connected [])
           (YStr "ada@example.com") (YStr "s3cret") (YStr "tok")
           (OtherError "INVALID_LOGIN: Invalid username, password, security token")
           eq_refl eq_refl eq_refl eq_refl).
Defined.



(** ** [fetch_data] *)

Lemma fetch_data_unconnected_eq (w : world) (m : machine) (t : string) :
  table_name (self m) = Some t -> str_truthy t = true ->
  sf (self m) = None ->
  fetch_data w m =
    (inl (if list_truthy (fields (self m))
          then "Error executing query: 'NoneType' object has no attribute 'query'"
          else "Error retrieving fields for " +:+ t
               +:+ ": 'NoneType' object has no attribute '__getattr__'"),
     m).
Proof.
  intros Ht Htt Hsf. open_machine m. run_monad. rewrite Htt. cbn.
  destruct flds; reflexivity.
Qed.

(** X7. Without a connection ([self.sf] is [None]), [fetch_data] does not
    raise and nothing leaves the process: it returns the message of the
    step it stopped at (field discovery when the field list is empty, the
    query otherwise), and the machine is as it was. *)
Theorem fetch_data_without_connection (w : world) (m : machine) (t : string) :
  table_name (self m) = Some t -> str_truthy t = true ->
  sf (self m) = None ->
  (fetch_data w m).2 = m /\
  (fields (self m) = [] ->
   (fetch_data w m).1 = inl ("Error retrieving fields for " +:+ t
                             +:+ ": 'NoneType' object has no attribute '__getattr__'")) /\
  (fields (self m) <> [] ->
   (fetch_data w m).1
     = inl "Error executing query: 'NoneType' object has no attribute 'query'").
Proof.
  intros Ht Htt Hsf. rewrite (fetch_data_unconnected_eq w m t Ht Htt Hsf). cbn [fst snd].
  split; [done|]. split.
  - by intros ->.
  - intros Hne. by destruct (fields (self m)).
Qed.

Lemma fetch_data_without_connection_witness :
  (fetch_data Scenario.org_up (Faults.unconnected ["Id"])).2 = Faults.unconnected ["Id"] /\
  (fields (self (Faults.unconnected ["Id"])) = [] ->
   (fetch_data Scenario.org_up (Faults.unconnected ["Id"])).1
     = inl ("Error retrieving fields for " +:+ "Account"
            +:+ ": 'NoneType' object has no attribute '__getattr__'")) /\
  (fields (self (Faults.unconnected ["Id"])) <> [] ->
   (fetch_data Scenario.org_up (Faults.unconnected ["Id"])).1
     = inl "Error executing query: 'NoneType' object has no attribute 'query'").
Proof.
  exact (fetch_data_without_connection Scenario.org_up (Faults.unconnected ["Id"]) "Account"
           eq_refl eq_refl eq_refl).
Defined.

(** X8. With an empty field list, when the describe call fails,
    [fetch_data] returns the message that names the table and carries the
    text of the exception, and no query is sent. *)
Theorem fetch_data_describe_fails
    (w : world) (m : machine) (t : string) (h : handle) (e : exn) :
  table_name (self m) = Some t -> str_truthy t = true ->
  fields (self m) = [] ->
  sf (self m) = Some h ->
  describe w h t = inl e ->
  fetch_data w m =
    (inl ("Error retrieving fields for " +:+ t +:+ ": " +:+ exn_str e),
     {| self := self m; disk := disk m; log := log m ++ [EvDescribe h t] |}).
Proof.
  intros Ht Htt Hf Hsf Hd. open_machine m. run_monad. rewrite Htt. cbn.
  by rewrite Hd.
Qed.

Lemma fetch_data_describe_fails_witness :
  fetch_data Faults.org_no_object (Scenario.connected []) =
    (inl ("Error retrieving fields for " +:+ "Account" +:+ ": "
          +:+ exn_str (OtherError "Resource Account Not Found")),
     {| self := self (Scenario.connected []); disk := disk (Scenario.connected []);
        log := log (Scenario.connected []) ++ [EvDescribe 7 "Account"] |}).
Proof.
  exact (fetch_data_describe_fails Faults.org_no_object (Scenario.connected []) "Account" 7
           (OtherError "Resource Account Not Found") eq_refl eq_refl eq_refl eq_refl eq_refl).
Defined.

(** The field list [fetch_data] queries, once it is resolved. *)
Lemma fetch_data_with_fields
    (w : world) (m : machine) (t : string) (h : handle) (f : string) (rest : list string) :
  table_name (self m) = Some t -> str_truthy t = true ->
  fields (self m) = f :: rest ->
  sf (self m) = Some h ->
  fetch_data w m =
    (match query w h (build_query (f :: rest) t) with
     | inl e => inl ("Error executing query: " +:+ exn_str e)
     | inr resp => inr (drop "attributes" (DataFrame (records resp)))
     end,
     {| self := self m; disk := disk m;
        log := log m ++ [EvQuery h (build_query (f :: rest) t)] |}).
Proof.
  intros Ht Htt Hf Hsf. open_machine m. run_monad. rewrite Htt. cbn.
  by destruct (query w h _).
Qed.

Lemma fetch_data_with_described
    (w : world) (m : machine) (t : string) (h : handle) (ds : list sf_field) :
  table_name (self m) = Some t -> str_truthy t = true ->
  fields (self m) = [] ->
  sf (self m) = Some h ->
  describe w h t = inr ds ->
  fetch_data w m =
    (match query w h (build_query (map name ds) t) with
     | inl e => inl ("Error executing query: " +:+ exn_str e)
     | inr resp => inr (drop "attributes" (DataFrame (records resp)))
     end,
     {| self := self m; disk := disk m;
        log := log m ++ [EvDescribe h t; EvQuery h (build_query (map name ds) t)] |}).
Proof.
  intros Ht Htt Hf Hsf Hd. open_machine m. run_monad. rewrite Htt. cbn.
  rewrite Hd. cbn. destruct (query w h _); cbn; by rewrite <- app_assoc.
Qed.



(** X10. [fetch_data] never changes the instance nor the files, and
    only adds to the log: in particular the field names it discovers are
    not kept in [self.fields], so a later fetch with an empty field list
    describes the table again. *)
Theorem fetch_data_keeps_instance (w : world) (m : machine) :
  self (fetch_data w m).2 = self m /\
  disk (fetch_data w m).2 = disk m /\
  exists evs, log (fetch_data w m).2 = log m ++ evs /\ csv_paths evs = [].
Proof.
  destruct (fetch_data_frame w m) as (evs & -> & Hcsv & _). eauto.
Qed.

(** ** The table [fetch_data] builds *)

Lemma add_key_NoDup (cols : list string) (k : string) :
  NoDup cols -> NoDup (add_key cols k).
Proof.
  intros Hnd. unfold add_key. destruct (existsb (String.eqb k) cols) eqn:Hex; [done|].
  apply NoDup_app. split; [done|]. split; [|apply NoDup_singleton].
  intros x Hx Hk. apply list_elem_of_singleton in Hk as ->.
  assert (existsb (String.eqb k) cols = true) as Hyes; [|congruence].
  apply existsb_exists. exists k. split; [by apply list_elem_of_In | apply String.eqb_refl].
Qed.

Lemma foldl_add_key_NoDup (ks cols : list string) :
  NoDup cols -> NoDup (foldl add_key cols ks).
Proof.
  revert cols. induction ks as [|k ks IH]; intros cols Hnd; [done|].
  cbn. by apply IH, add_key_NoDup.
Qed.

Lemma select_sublist {A : Type} (mask : list bool) (l : list A) :
  sublist (select mask l) l.
Proof.
  revert l. induction mask as [|b mask IH]; intros [|x l]; cbn;
    try apply sublist_nil_l.
  destruct b; [apply sublist_skip | apply sublist_cons]; apply IH.
Qed.

Lemma length_select_map {A B : Type} (f : A -> B) (mask : list bool) (l : list A) :
  length (select mask (map f l)) = length (select mask l).
Proof. by rewrite select_map, length_map. Qed.

(** The table built from the records of a response, with the
    [attributes] column dropped: its column labels are distinct, every row
    has one cell for each column, and there are as many rows as records,
    whatever fields the records have or lack. *)
Lemma response_table_well_formed (rs : list record) :
  NoDup (columns (drop "attributes" (DataFrame rs))) /\
  rectangular (drop "attributes" (DataFrame rs)) /\
  length (rows (drop "attributes" (DataFrame rs))) = length rs.
Proof.
  split; [|split].
  - unfold drop, DataFrame. cbn [columns].
    eapply sublist_NoDup; [|apply select_sublist].
    unfold union_keys. apply foldl_add_key_NoDup. constructor.
  - unfold rectangular. rewrite rows_drop_DataFrame.
    apply Forall_forall. intros r Hr.
    apply list_elem_of_In, in_map_iff in Hr as (r0 & <- & _).
    by rewrite length_map.
  - by rewrite rows_drop_DataFrame, length_map.
Qed.

Lemma fetch_data_table (w : world) (m : machine) (df : dataframe) :
  (fetch_data w m).1 = inr df ->
  exists rs, df = drop "attributes" (DataFrame rs).
Proof.
  revert df. open_machine m. run_monad.
  repeat step; intros df [= <-]; eauto.
Qed.

(** X11. Every table [fetch_data] returns is well formed, whatever fields
    the records of the response have or lack: its column labels are
    distinct and every row has one cell for each column. *)
Theorem fetch_data_table_well_formed (w : world) (m : machine) (df : dataframe) :
  (fetch_data w m).1 = inr df ->
  NoDup (columns df) /\ rectangular df.
Proof.
  intros Hdf. apply fetch_data_table in Hdf as (rs & ->).
  destruct (response_table_well_formed rs) as (Hnd & Hrect & _). done.
Qed.

Lemma fetch_data_table_well_formed_witness :
  NoDup (columns {| columns := ["Id"; "Name"];
                    rows := [[VStr "001"; VStr "Acme, Inc"]; [VStr "002"; VNull]] |}) /\
  rectangular {| columns := ["Id"; "Name"];
                 rows := [[VStr "001"; VStr "Acme, Inc"]; [VStr "002"; VNull]] |}.
Proof.
  exact (fetch_data_table_well_formed Scenario.org_up (Scenario.connected ["Id"; "Name"])
           {| columns := ["Id"; "Name"];
              rows := [[VStr "001"; VStr "Acme, Inc"]; [VStr "002"; VNull]] |}
           eq_refl).
Defined.

(** ** [save_to_csv] *)



(** The files after [save_to_csv], in both cases. *)
Lemma save_to_csv_disk (w : world) (m : machine) (df : dataframe) :
  disk (save_to_csv w df m).2 =
    match open_for_write w (target_path (self m)) with
    | Some _ => disk m
    | None => <[target_path (self m) := to_csv_text df]> (disk m)
    end.
Proof.
  destruct (open_for_write w (target_path (self m))) as [e|] eqn:Hw.
  - by rewrite (save_to_csv_fails w m df e Hw).
  - by rewrite (save_to_csv_writes w m df Hw).
Qed.

Lemma save_to_csv_self (w : world) (m : machine) (df : dataframe) :
  self (save_to_csv w df m).2 = set_file_name (target_path (self m)) (self m).
Proof.
  destruct (open_for_write w (target_path (self m))) as [e|] eqn:Hw.
  - by rewrite (save_to_csv_fails w m df e Hw).
  - by rewrite (save_to_csv_writes w m df Hw).
Qed.

Lemma save_to_csv_log (w : world) (m : machine) (df : dataframe) :
  log (save_to_csv w df m).2 = log m ++ [EvToCsv (target_path (self m))].
Proof.
  destruct (open_for_write w (target_path (self m))) as [e|] eqn:Hw.
  - by rewrite (save_to_csv_fails w m df e Hw).
  - by rewrite (save_to_csv_writes w m df Hw).
Qed.

(** X13. [save_to_csv] touches no file but the one at its target path:
    every other file has the content it had, whether the write succeeds or
    fails. *)
Theorem save_to_csv_other_files (w : world) (m : machine) (df : dataframe) (p : string) :
  p <> target_path (self m) ->
  disk (save_to_csv w df m).2 !! p = disk m !! p.
Proof.
  intros Hp. rewrite save_to_csv_disk.
  destruct (open_for_write w _); [done|]. by rewrite lookup_insert_ne.
Qed.

Lemma save_to_csv_other_files_witness :
  disk (save_to_csv Scenario.org_up Faults.small_frame Scenario.after_account).2 !! "notes.txt"
    = disk Scenario.after_account !! "notes.txt".
Proof.
  apply (save_to_csv_other_files Scenario.org_up Scenario.after_account Faults.small_frame
           "notes.txt").
  vm_compute. discriminate.
Defined.

(** The target path is never empty, and [save_to_csv] fixes it. *)
Lemma append_truthy_r (a b : string) : str_truthy b = true -> str_truthy (a +:+ b) = true.
Proof. destruct a; [by cbn | reflexivity]. Qed.

Lemma target_path_truthy (f : fetcher) : str_truthy (target_path f) = true.
Proof.
  unfold target_path. destruct (file_name f) as [n|]; cbn.
  - destruct (str_truthy n) eqn:Hn; [done|]. by apply append_truthy_r.
  - by apply append_truthy_r.
Qed.

Lemma target_path_set_file_name (f : fetcher) :
  target_path (set_file_name (target_path f) f) = target_path f.
Proof.
  unfold target_path at 1. cbn [file_name set_file_name opt_truthy fmt_opt].
  by rewrite target_path_truthy.
Qed.

Lemma target_path_after_save (w : world) (m : machine) (df : dataframe) :
  target_path (self (save_to_csv w df m).2) = target_path (self m).
Proof. rewrite save_to_csv_self. apply target_path_set_file_name. Qed.

(** X14. Once [save_to_csv] has run, the path it resolved stays the
    target of the instance: a later [save_to_csv] writes to the same path,
    also after [self.table_name] has been set to another table. *)
Theorem save_to_csv_path_is_kept
    (w : world) (m : machine) (df : dataframe) (t' : string) :
  target_path (self (save_to_csv w df m).2) = target_path (self m) /\
  target_path (set_table_name t' (self (save_to_csv w df m).2)) = target_path (self m).
Proof.
  rewrite save_to_csv_self. split; [apply target_path_set_file_name|].
  unfold target_path at 1.
  cbn [file_name set_file_name set_table_name opt_truthy fmt_opt].
  by rewrite target_path_truthy.
Qed.

(** X15. Saving is an overwrite: when the target can be written, saving
    the same table twice leaves the files as saving it once, and saving a
    second table after a first leaves the files as saving the second
    alone. *)
Theorem save_to_csv_overwrites (w : world) (m : machine) (df df' : dataframe) :
  open_for_write w (target_path (self m)) = None ->
  disk (save_to_csv w df (save_to_csv w df m).2).2 = disk (save_to_csv w df m).2 /\
  disk (save_to_csv w df' (save_to_csv w df m).2).2 = disk (save_to_csv w df' m).2.
Proof.
  intros Hw.
  assert (forall d, disk (save_to_csv w d (save_to_csv w df m).2).2
                    = <[target_path (self m) := to_csv_text d]> (disk m)) as Htwice.
  { intros d. rewrite save_to_csv_disk.
    rewrite target_path_after_save, Hw.
    rewrite (save_to_csv_disk w m df), Hw. apply insert_insert_eq. }
  split.
  - rewrite Htwice. by rewrite (save_to_csv_disk w m df), Hw.
  - rewrite Htwice. by rewrite (save_to_csv_disk w m df'), Hw.
Qed.

Lemma save_to_csv_overwrites_witness :
  disk (save_to_csv Scenario.org_up Faults.small_frame
          (save_to_csv Scenario.org_up Faults.small_frame (Scenario.connected [])).2).2
    = disk (save_to_csv Scenario.org_up Faults.small_frame (Scenario.connected [])).2 /\
  disk (save_to_csv Scenario.org_up Faults.other_frame
          (save_to_csv Scenario.org_up Faults.small_frame (Scenario.connected [])).2).2
    = disk (save_to_csv Scenario.org_up Faults.other_frame (Scenario.connected [])).2.
Proof.
  exact (save_to_csv_overwrites Scenario.org_up (Scenario.connected []) Faults.small_frame
           Faults.other_frame eq_refl).
Defined.

(** ** [fetch_and_save_data], stage by stage *)

Lemma with_arguments_keeps (t : string) (fs : option (list string))
    (fn : option string) (f : fetcher) :
  config_path (with_arguments t fs fn f) = config_path f /\
  domain (with_arguments t fs fn f) = domain f /\
  sf (with_arguments t fs fn f) = sf f /\
  table_name (with_arguments t fs fn f) = Some t.
Proof. by destruct fs, fn. Qed.

(** The run once the credentials are loaded. *)
Lemma run_after_load (w : world) (m : machine) (t : string)
    (fs : option (list string)) (fn : option string) (config u p tk : yaml) :
  str_truthy t = true ->
  open_and_load w (config_path (self m)) = inr config ->
  credential config "uname" = inr u ->
  credential config "pwd" = inr p ->
  credential config "sftoken" = inr tk ->
  fetch_and_save_data w (Some t) fs fn m =
    let m1 := {| self := loaded u p tk (with_arguments t fs fn (self m)); disk := disk m;
                 log := log m ++ [EvOpenConfig (config_path (self m))] |} in
    let m2 := (connect_to_salesforce w m1).2 in
    match (fetch_data w m2).1 with
    | inr frame => save_to_csv w frame (fetch_data w m2).2
    | inl message => (message, (fetch_data w m2).2)
    end.
Proof.
  intros Ht Hopen Hu Hp Htk.
  rewrite (fetch_and_save_data_stages w t fs fn m Ht). cbv zeta.
  destruct (with_arguments_keeps t fs fn (self m)) as (Hcfg & _).
  rewrite (load_credentials_ok_eq w _ config u p tk);
    cbn [self disk log]; rewrite ?Hcfg; try done.
  cbn [fst snd opt_truthy]. by rewrite connect_to_salesforce_truthy.
Qed.

Lemma loaded_keeps (u p tk : yaml) (f : fetcher) :
  uname (loaded u p tk f) = Some u /\ pwd (loaded u p tk f) = Some p /\
  sftoken (loaded u p tk f) = Some tk /\ domain (loaded u p tk f) = domain f /\
  sf (loaded u p tk f) = sf f /\ table_name (loaded u p tk f) = table_name f /\
  fields (loaded u p tk f) = fields f /\ file_name (loaded u p tk f) = file_name f.
Proof. done. Qed.

(** The run from the moment the connection stage is over, with [conn] in
    [self.sf], when the field list is given. *)
Lemma run_from_connection (w : world) (s : fetcher) (d : gmap string string)
    (l : list event) (t : string) (h : handle) (f : string) (rest : list string)
    (resp : response) :
  table_name s = Some t -> str_truthy t = true ->
  fields s = f :: rest ->
  sf s = Some h ->
  query w h (build_query (f :: rest) t) = inr resp ->
  open_for_write w (target_path s) = None ->
  let m2 := {| self := s; disk := d; log := l |} in
  match (fetch_data w m2).1 with
  | inr frame => save_to_csv w frame (fetch_data w m2).2
  | inl message => (message, (fetch_data w m2).2)
  end =
  ("Data saved to " +:+ target_path s,
   {| self := set_file_name (target_path s) s;
      disk := <[target_path s := to_csv_text (drop "attributes" (DataFrame (records resp)))]> d;
      log := l ++ [EvQuery h (build_query (f :: rest) t); EvToCsv (target_path s)] |}).
Proof.
  intros Ht Htt Hf Hsf Hq Hw m2.
  rewrite (fetch_data_with_fields w m2 t h f rest Ht Htt Hf Hsf). rewrite Hq. cbn [fst snd].
  rewrite save_to_csv_writes; cbn [self disk log]; [|done].
  by rewrite <- app_assoc.
Qed.

(** The same when the field list is empty and the table is described. *)
Lemma run_from_connection_described (w : world) (s : fetcher) (d : gmap string string)
    (l : list event) (t : string) (h : handle) (ds : list sf_field) (resp : response) :
  table_name s = Some t -> str_truthy t = true ->
  fields s = [] ->
  sf s = Some h ->
  describe w h t = inr ds ->
  query w h (build_query (map name ds) t) = inr resp ->
  open_for_write w (target_path s) = None ->
  let m2 := {| self := s; disk := d; log := l |} in
  match (fetch_data w m2).1 with
  | inr frame => save_to_csv w frame (fetch_data w m2).2
  | inl message => (message, (fetch_data w m2).2)
  end =
  ("Data saved to " +:+ target_path s,
   {| self := set_file_name (target_path s) s;
      disk := <[target_path s := to_csv_text (drop "attributes" (DataFrame (records resp)))]> d;
      log := l ++ [EvDescribe h t; EvQuery h (build_query (map name ds) t);
                   EvToCsv (target_path s)] |}).
Proof.
  intros Ht Htt Hf Hsf Hd Hq Hw m2.
  rewrite (fetch_data_with_described w m2 t h ds Ht Htt Hf Hsf Hd). rewrite Hq. cbn [fst snd].
  rewrite save_to_csv_writes; cbn [self disk log]; [|done].
  by rewrite <- app_assoc.
Qed.

(** A run in which every stage succeeds, the field list being given. *)
Lemma run_succeeds_eq (w : world) (m : machine) (t : string)
    (fs : option (list string)) (fn : option string) (config u p tk : yaml)
    (h : handle) (f : string) (rest : list string) (resp : response) :
  let s0 := with_arguments t fs fn (self m) in
  str_truthy t = true ->
  open_and_load w (config_path (self m)) = inr config ->
  credential config "uname" = inr u ->
  credential config "pwd" = inr p ->
  credential config "sftoken" = inr tk ->
  login w u p tk (domain (self m)) = inr h ->
  fields s0 = f :: rest ->
  query w h (build_query (f :: rest) t) = inr resp ->
  open_for_write w (target_path s0) = None ->
  fetch_and_save_data w (Some t) fs fn m =
    ("Data saved to " +:+ target_path s0,
     {| self := set_file_name (target_path s0) (set_sf h (loaded u p tk s0));
        disk := <[target_path s0 :=
                    to_csv_text (drop "attributes" (DataFrame (records resp)))]> (disk m);
        log := log m ++ [EvOpenConfig (config_path (self m));
                         EvLogin u p tk (domain (self m));
                         EvQuery h (build_query (f :: rest) t);
                         EvToCsv (target_path s0)] |}).
Proof.
  intros s0 Ht Hopen Hu Hp Htk Hlogin Hf Hq Hw.
  rewrite (run_after_load w m t fs fn config u p tk Ht Hopen Hu Hp Htk). cbv zeta. fold s0.
  destruct (with_arguments_keeps t fs fn (self m)) as (_ & Hdom & _ & Htab). fold s0 in Hdom, Htab.
  rewrite (connect_accepted_eq w _ u p tk h); cbn [self disk log snd];
    try done; [|by rewrite <- Hdom in Hlogin].
  rewrite (run_from_connection w _ _ _ t h f rest resp); try done.
  rewrite <- !app_assoc. cbn [app].
  change (domain (loaded u p tk s0)) with (domain s0). by rewrite Hdom.
Qed.





(** ** A refused login, in general *)

(** X18. A refused login on an instance that holds no connection: the run
    does not stop at the connection stage; it goes on to [fetch_data],
    which fails on the missing connection, and the message returned is
    the one of [fetch_data], not the one of the connection. Nothing is
    described, queried or written, and the new credentials stay in the
    instance. *)
Theorem run_refused_login_without_connection (w : world) (m : machine) (t : string)
    (fs : option (list string)) (fn : option string) (config u p tk : yaml) (e : exn) :
  let s0 := with_arguments t fs fn (self m) in
  str_truthy t = true ->
  open_and_load w (config_path (self m)) = inr config ->
  credential config "uname" = inr u ->
  credential config "pwd" = inr p ->
  credential config "sftoken" = inr tk ->
  login w u p tk (domain (self m)) = inl e ->
  sf (self m) = None ->
  fetch_and_save_data w (Some t) fs fn m =
    (if list_truthy (fields s0)
     then "Error executing query: 'NoneType' object has no attribute 'query'"
     else "Error retrieving fields for " +:+ t
          +:+ ": 'NoneType' object has no attribute '__getattr__'",
     {| self := loaded u p tk s0; disk := disk m;
        log := log m ++ [EvOpenConfig (config_path (self m));
                         EvLogin u p tk (domain (self m))] |}).
Proof.
  intros s0 Ht Hopen Hu Hp Htk Hlogin Hsf.
  rewrite (run_after_load w m t fs fn config u p tk Ht Hopen Hu Hp Htk). cbv zeta. fold s0.
  destruct (with_arguments_keeps t fs fn (self m)) as (_ & Hdom & Hsf0 & Htab).
  fold s0 in Hdom, Hsf0, Htab.
  rewrite (connect_refused_eq w _ u p tk e); cbn [self disk log snd];
    try done; [|by rewrite <- Hdom in Hlogin].
  rewrite (fetch_data_unconnected_eq w _ t); cbn [self disk log fst snd];
    try done; [|by rewrite <- Hsf].
  rewrite <- !app_assoc. cbn [app].
  change (domain (loaded u p tk s0)) with (domain s0). by rewrite Hdom.
Qed.

Lemma run_refused_login_without_connection_witness :
  fetch_and_save_data Scenario.org_down (Some "Account") (Some []) None Scenario.fresh =
    (if list_truthy (fields (with_arguments "Account" (Some []) None (self Scenario.fresh)))
     then "Error executing query: 'NoneType' object has no attribute 'query'"
     else "Error retrieving fields for " +:+ "Account"
          +:+ ": 'NoneType' object has no attribute '__getattr__'",
     {| self := loaded (YStr "ada@example.com") (YStr "s3cret") (YStr "tok")
                  (with_arguments "Account" (Some []) None (self Scenario.fresh));
        disk := disk Scenario.fresh;
        log := log Scenario.fresh
               ++ [EvOpenConfig (config_path (self Scenario.fresh));
                   EvLogin (YStr "ada@example.com") (YStr "s3cret") (YStr "tok")
                     (domain (self Scenario.fresh))] |}).
Proof.
  exact (run_refused_login_without_connection Scenario.org_down Scenario.fresh "Account"
           (Some []) None Scenario.good_config
           (YStr "ada@example.com") (YStr "s3cret") (YStr "tok")
           (OtherError "INVALID_LOGIN: Invalid username, password, security token")
           eq_refl eq_refl eq_refl eq_refl eq_refl eq_refl eq_refl).
Defined.



(** ** What every run does and never does *)

Lemma connect_to_salesforce_calls (w : world) (m : machine) :
  exists s' evs,
    (connect_to_salesforce w m).2
      = {| self := s'; disk := disk m; log := log m ++ evs |} /\
    request s' = request (self m) /\ login_calls evs.
Proof.
  unfold login_calls. open_machine m. run_monad.
  repeat step;
    first [ by eexists _, [_]; split; [reflexivity|]; split; [reflexivity|]; right; eauto 6
          | by eexists _, []; rewrite app_nil_r; split; [reflexivity|]; split;
              [reflexivity|]; left ].
Qed.

Lemma fetch_data_calls (w : world) (m : machine) :
  exists evs,
    (fetch_data w m).2 = {| self := self m; disk := disk m; log := log m ++ evs |} /\
    fetch_calls evs.
Proof.
  unfold fetch_calls. open_machine m. run_monad.
  repeat step; rewrite <- ?app_assoc;
    first [ eexists; split; [reflexivity|]; cbn; eauto 8
          | exists []; rewrite app_nil_r; split; [reflexivity|]; by left ].
Qed.

Lemma target_path_request (f g : fetcher) :
  request f = request g -> target_path f = target_path g.
Proof.
  intros (Ht & _ & Hn)%request_inv. unfold target_path. by rewrite Ht, Hn.
Qed.

(** One run with a table name, as the calls it makes and the file it
    may write. *)
Lemma run_decomposition (w : world) (m : machine) (t : string)
    (fs : option (list string)) (fn : option string) :
  str_truthy t = true ->
  let tp := target_path (with_arguments t fs fn (self m)) in
  exists s' d' evs2 evs3 evs4,
    (fetch_and_save_data w (Some t) fs fn m).2
      = {| self := s'; disk := d';
           log := log m ++ EvOpenConfig (config_path (self m)) :: evs2 ++ evs3 ++ evs4 |} /\
    login_calls evs2 /\ fetch_calls evs3 /\
    (evs4 = [] /\ d' = disk m \/
     evs4 = [EvToCsv tp] /\ (d' = disk m \/ exists c, d' = <[tp := c]> (disk m))).
Proof.
  intros Ht tp. rewrite (fetch_and_save_data_stages w t fs fn m Ht). cbv zeta.
  set (m0 := {| self := with_arguments t fs fn (self m); disk := disk m; log := log m |}).
  destruct (with_arguments_keeps t fs fn (self m)) as (Hcfg & _).
  pose proof (load_credentials_frame w m0) as (s1 & Hm1 & Hreq1 & _).
  pose proof (load_credentials_returns w m0) as Hret1.
  destruct (load_credentials w m0) as [r1 m1]. cbn [fst snd] in *. subst m1.
  change (self m0) with (with_arguments t fs fn (self m)) in *.
  change (disk m0) with (disk m) in *. change (log m0) with (log m) in *.
  clearbody m0. rewrite Hcfg.
  destruct (opt_truthy r1) eqn:Hr1.
  { cbn [snd]. exists s1, (disk m), [], [], [].
    split; [reflexivity|]. split; [by left|]. split; [by left|]. by left. }
  assert (r1 = None) as ->.
  { destruct Hret1 as [-> | [e ->]]; [done|]. by rewrite load_credentials_handler_truthy in Hr1. }
  set (m1 := {| self := s1 |}).
  pose proof (connect_to_salesforce_calls w m1) as (s2 & evs2 & Hm2 & Hreq2 & Hcalls2).
  pose proof (connect_to_salesforce_truthy w m1) as Htruthy.
  destruct (connect_to_salesforce w m1) as [r2 m2]. cbn [fst snd] in *. subst m2.
  cbn [self disk log m1] in *. clearbody m1. rewrite Htruthy. cbn [negb].
  rewrite Hreq1 in Hreq2.
  set (m2 := {| self := s2 |}).
  pose proof (fetch_data_calls w m2) as (evs3 & Hm3 & Hcalls3).
  destruct (fetch_data w m2) as [r3 m3]. cbn [fst snd] in *. subst m3.
  cbn [self disk log m2] in *. clearbody m2.
  destruct r3 as [message|frame].
  { cbn [snd]. exists s2, (disk m), evs2, evs3, [].
    split; [by rewrite app_nil_r, <- !app_assoc|].
    split; [done|]. split; [done|]. by left. }
  set (m3 := {| self := s2 |}).
  assert (target_path s2 = tp) as Htp by (by apply target_path_request).
  exists (self (save_to_csv w frame m3).2), (disk (save_to_csv w frame m3).2),
    evs2, evs3, [EvToCsv tp].
  split.
  { destruct (save_to_csv w frame m3) as [r4 [s4 d4 l4]] eqn:Hsave. cbn [snd self disk].
    f_equal. pose proof (save_to_csv_log w m3 frame) as Hlog.
    rewrite Hsave in Hlog. cbn [snd log] in Hlog.
    change (self m3) with s2 in Hlog. unfold m3 in Hlog. cbn [log] in Hlog.
    rewrite Hlog, Htp. by rewrite <- !app_assoc. }
  split; [done|]. split; [done|]. right. split; [done|].
  rewrite save_to_csv_disk. cbn [self disk m3]. rewrite Htp.
  destruct (open_for_write w tp); [by left | right; eauto].
Qed.

(** X20. In every run the external calls are made in the order of the
    stages (config file, login, describe, query, CSV file) and each at
    most once: the stages of the calls a run adds to the log are strictly
    increasing. *)
Theorem run_calls_in_stage_order (w : world) (m : machine) (t : option string)
    (fs : option (list string)) (fn : option string) :
  exists evs,
    log (fetch_and_save_data w t fs fn m).2 = log m ++ evs /\
    ascending (map stage evs) = true.
Proof.
  destruct t as [t|]; [|by exists []; rewrite app_nil_r].
  destruct (str_truthy t) eqn:Ht; cycle 1.
  { exists []. rewrite app_nil_r. unfold fetch_and_save_data. cbn [opt_truthy].
    by rewrite Ht. }
  destruct (run_decomposition w m t fs fn Ht)
    as (s' & d' & evs2 & evs3 & evs4 & -> & Hc2 & Hc3 & Hc4).
  eexists. split; [reflexivity|].
  destruct Hc2 as [-> | (u & p & tk & d & ->)];
    destruct Hc3 as [-> | [(h & x & ->) | [(h & x & q & ->) | (h & q & ->)]]];
    destruct Hc4 as [[-> _] | [-> _]]; reflexivity.
Qed.

(** X21. A run changes no file but the one at the target path of its
    request (the given file name, else the name the instance already
    holds, else the table name with [.csv]): every other file keeps its
    content, whatever the world does. *)
Theorem run_touches_one_file (w : world) (m : machine) (t : string)
    (fs : option (list string)) (fn : option string) (p : string) :
  p <> target_path (with_arguments t fs fn (self m)) ->
  disk (fetch_and_save_data w (Some t) fs fn m).2 !! p = disk m !! p.
Proof.
  intros Hp. destruct (str_truthy t) eqn:Ht; cycle 1.
  { unfold fetch_and_save_data. cbn [opt_truthy]. by rewrite Ht. }
  destruct (run_decomposition w m t fs fn Ht)
    as (s' & d' & evs2 & evs3 & evs4 & -> & _ & _ & Hc4).
  cbn [disk].
  destruct Hc4 as [[_ ->] | [_ [-> | [c ->]]]]; try done.
  by rewrite lookup_insert_ne.
Qed.

Lemma run_touches_one_file_witness :
  disk (fetch_and_save_data Scenario.org_up (Some "Contact") None None
          Scenario.after_account).2 !! "Contact.csv"
    = disk Scenario.after_account !! "Contact.csv".
Proof.
  apply (run_touches_one_file Scenario.org_up Scenario.after_account "Contact" None None
           "Contact.csv").
  vm_compute. discriminate.
Defined.

(** X22. An error of [load_credentials] ends the run: the message is
    returned as it is, the only external call made is the access to the
    config file, no file changes, and the connection the instance held is
    kept. *)
Theorem run_stops_on_load_error (w : world) (m : machine) (t : string)
    (fs : option (list string)) (fn : option string) (message : string) :
  let m0 := {| self := with_arguments t fs fn (self m); disk := disk m; log := log m |} in
  str_truthy t = true ->
  (load_credentials w m0).1 = Some message ->
  (fetch_and_save_data w (Some t) fs fn m).1 = message /\
  log (fetch_and_save_data w (Some t) fs fn m).2
    = log m ++ [EvOpenConfig (config_path (self m))] /\
  disk (fetch_and_save_data w (Some t) fs fn m).2 = disk m /\
  sf (self (fetch_and_save_data w (Some t) fs fn m).2) = sf (self m).
Proof.
  intros m0 Ht Hload.
  assert (str_truthy message = true) as Hmsg.
  { destruct (load_credentials_returns w m0) as [Hnone | [e He]]; [congruence|].
    rewrite Hload in He. pose proof (load_credentials_handler_truthy e) as Htr.
    rewrite <- He in Htr. exact Htr. }
  rewrite (fetch_and_save_data_stages w t fs fn m Ht). cbv zeta. fold m0.
  rewrite Hload. cbn [opt_truthy fmt_opt]. rewrite Hmsg. cbn [fst snd].
  destruct (load_credentials_frame w m0) as (s1 & -> & _ & Hsf). cbn [disk log self m0] in *.
  destruct (with_arguments_keeps t fs fn (self m)) as (-> & _ & Hsf0 & _).
  by rewrite Hsf, Hsf0.
Qed.

Lemma run_stops_on_load_error_witness :
  (fetch_and_save_data Scenario.org_no_pwd (Some "Account") (Some ["Id"]) None
     Scenario.after_account).1
    = "Error: Missing required key in config file: 'pwd'" /\
  log (fetch_and_save_data Scenario.org_no_pwd (Some "Account") (Some ["Id"]) None
         Scenario.after_account).2
    = log Scenario.after_account ++ [EvOpenConfig (config_path (self Scenario.after_account))] /\
  disk (fetch_and_save_data Scenario.org_no_pwd (Some "Account") (Some ["Id"]) None
          Scenario.after_account).2 = disk Scenario.after_account /\
  sf (self (fetch_and_save_data Scenario.org_no_pwd (Some "Account") (Some ["Id"]) None
              Scenario.after_account).2) = sf (self Scenario.after_account).
Proof.
  exact (run_stops_on_load_error Scenario.org_no_pwd Scenario.after_account "Account"
           (Some ["Id"]) None "Error: Missing required key in config file: 'pwd'"
           eq_refl eq_refl).
Defined.



(** The message of [fetch_data] when the table name is set. *)
Lemma fetch_data_returns_with_table (w : world) (m : machine) (t message : string) :
  table_name (self m) = Some t -> str_truthy t = true ->
  (fetch_data w m).1 = inl message ->
  (exists e, message = "Error retrieving fields for " +:+ t +:+ ": " +:+ exn_str e) \/
  (exists e, message = "Error executing query: " +:+ exn_str e).
Proof.
  intros Ht Htt. revert message. open_machine m. run_monad. rewrite Htt. cbn.
  repeat step; intros message [= <-]; eauto.
Qed.

Lemma run_result_truthy (w : world) (m : machine) (t : option string)
    (fs : option (list string)) (fn : option string) :
  str_truthy (fetch_and_save_data w t fs fn m).1 = true.
Proof.
  destruct t as [t|]; [|reflexivity].
  destruct (str_truthy t) eqn:Ht; cycle 1.
  { unfold fetch_and_save_data. cbn [opt_truthy]. by rewrite Ht. }
  rewrite (fetch_and_save_data_stages w t fs fn m Ht). cbv zeta.
  set (m0 := {| self := with_arguments t fs fn (self m) |}).
  destruct (load_credentials_returns w m0) as [-> | [e ->]]; cycle 1.
  { rewrite load_credentials_handler_truthy. cbn [fst]. by destruct e. }
  cbn [opt_truthy]. rewrite connect_to_salesforce_truthy. cbn [negb].
  destruct (fetch_data w _).1 as [message|frame] eqn:Hfetch.
  - cbn [fst].
    apply fetch_data_returns in Hfetch as [-> | [[e ->] | [e ->]]]; reflexivity.
  - destruct (save_to_csv_returns w frame
                (fetch_data w (connect_to_salesforce w (load_credentials w m0).2).2).2)
      as [-> | [e ->]]; reflexivity.
Qed.

(** X24. [fetch_and_save_data] never returns the empty string: whatever
    the arguments, the instance and the world, its result is true in a
    condition, so a caller that tests it always sees a message. *)
Theorem run_result_never_empty (w : world) (m : machine) (t : option string)
    (fs : option (list string)) (fn : option string) :
  (fetch_and_save_data w t fs fn m).1 <> EmptyString /\
  str_truthy (fetch_and_save_data w t fs fn m).1 = true.
Proof.
  pose proof (run_result_truthy w m t fs fn) as Htruthy.
  split; [|done]. intros Hempty. by rewrite Hempty in Htruthy.
Qed.

Lemma run_result_not_table_message (w : world) (m : machine) (t : option string)
    (fs : option (list string)) (fn : option string) :
  (fetch_and_save_data w t fs fn m).1
  <> "Error: Table name not provided. Please set the table name before fetching data.".
Proof.
  destruct t as [t|]; [|discriminate].
  destruct (str_truthy t) eqn:Ht; cycle 1.
  { unfold fetch_and_save_data. cbn [opt_truthy]. rewrite Ht. discriminate. }
  rewrite (fetch_and_save_data_stages w t fs fn m Ht). cbv zeta.
  set (m0 := {| self := with_arguments t fs fn (self m); disk := disk m; log := log m |}).
  pose proof (load_credentials_frame w m0) as (s1 & Hm1 & Hreq1 & _).
  destruct (load_credentials_returns w m0) as [Hr1 | [e Hr1]]; rewrite Hr1; cycle 1.
  { rewrite load_credentials_handler_truthy. cbn [fst]. destruct e; discriminate. }
  cbn [opt_truthy]. rewrite connect_to_salesforce_truthy. cbn [negb].
  pose proof (connect_to_salesforce_frame w (load_credentials w m0).2)
    as (s2 & evs2 & Hm2 & Hreq2 & _).
  rewrite Hm1 in Hreq2. cbn [self] in Hreq2. rewrite Hreq1 in Hreq2.
  change (self m0) with (with_arguments t fs fn (self m)) in Hreq2.
  rewrite request_with_arguments in Hreq2. unfold request in Hreq2.
  injection Hreq2 as Ht2 _ _.
  destruct (fetch_data w _).1 as [message|frame] eqn:Hfetch.
  - cbn [fst]. rewrite Hm2 in Hfetch.
    apply (fetch_data_returns_with_table w _ t) in Hfetch as [[e ->] | [e ->]];
      try done; discriminate.
  - destruct (save_to_csv_returns w frame
                (fetch_data w (connect_to_salesforce w (load_credentials w m0).2).2).2)
      as [-> | [e ->]]; discriminate.
Qed.

(** X25. Reached through [fetch_and_save_data], the guard of [fetch_data]
    on the table name never fires: the run never returns the message that
    asks to set the table name first. *)
Theorem run_never_asks_for_table (w : world) (m : machine) (t : option string)
    (fs : option (list string)) (fn : option string) :
  String.eqb (fetch_and_save_data w t fs fn m).1
    "Error: Table name not provided. Please set the table name before fetching data."
  = false.
Proof. apply String.eqb_neq, run_result_not_table_message. Qed.

(** X26. An error of [fetch_data] (no connection, describe or query
    failure) is what the run returns, as it is; no file changes and no
    write is attempted. *)
Theorem run_returns_fetch_error (w : world) (m : machine) (t : string)
    (fs : option (list string)) (fn : option string) (message : string) :
  let m0 := {| self := with_arguments t fs fn (self m); disk := disk m; log := log m |} in
  let m2 := (connect_to_salesforce w (load_credentials w m0).2).2 in
  str_truthy t = true ->
  (load_credentials w m0).1 = None ->
  (fetch_data w m2).1 = inl message ->
  (fetch_and_save_data w (Some t) fs fn m).1 = message /\
  disk (fetch_and_save_data w (Some t) fs fn m).2 = disk m /\
  csv_paths (log (fetch_and_save_data w (Some t) fs fn m).2) = csv_paths (log m).
Proof.
  intros m0 m2 Ht Hload Hfetch.
  exact (fetch_error_is_returned w m t fs fn message Ht Hload Hfetch).
Qed.

Lemma run_returns_fetch_error_witness :
  (fetch_and_save_data Faults.org_no_object (Some "Account") (Some []) None
     Scenario.fresh).1
    = "Error retrieving fields for Account: Resource Account Not Found" /\
  disk (fetch_and_save_data Faults.org_no_object (Some "Account") (Some []) None
          Scenario.fresh).2 = disk Scenario.fresh /\
  csv_paths (log (fetch_and_save_data Faults.org_no_object (Some "Account") (Some []) None
                    Scenario.fresh).2) = csv_paths (log Scenario.fresh).
Proof.
  exact (run_returns_fetch_error Faults.org_no_object Scenario.fresh "Account" (Some []) None
           "Error retrieving fields for Account: Resource Account Not Found"
           eq_refl eq_refl eq_refl).
Defined.

(** A run in which every stage succeeds, the field list being empty. *)
Lemma run_discovers_fields_eq (w : world) (m : machine) (t : string)
    (fs : option (list string)) (fn : option string) (config u p tk : yaml)
    (h : handle) (ds : list sf_field) (resp : response) :
  let s0 := with_arguments t fs fn (self m) in
  str_truthy t = true ->
  open_and_load w (config_path (self m)) = inr config ->
  credential config "uname" = inr u ->
  credential config "pwd" = inr p ->
  credential config "sftoken" = inr tk ->
  login w u p tk (domain (self m)) = inr h ->
  fields s0 = [] ->
  describe w h t = inr ds ->
  query w h (build_query (map name ds) t) = inr resp ->
  open_for_write w (target_path s0) = None ->
  fetch_and_save_data w (Some t) fs fn m =
    ("Data saved to " +:+ target_path s0,
     {| self := set_file_name (target_path s0) (set_sf h (loaded u p tk s0));
        disk := <[target_path s0 :=
                    to_csv_text (drop "attributes" (DataFrame (records resp)))]> (disk m);
        log := log m ++ [EvOpenConfig (config_path (self m));
                         EvLogin u p tk (domain (self m));
                         EvDescribe h t;
                         EvQuery h (build_query (map name ds) t);
                         EvToCsv (target_path s0)] |}).
Proof.
  intros s0 Ht Hopen Hu Hp Htk Hlogin Hf Hd Hq Hw.
  rewrite (run_after_load w m t fs fn config u p tk Ht Hopen Hu Hp Htk). cbv zeta. fold s0.
  destruct (with_arguments_keeps t fs fn (self m)) as (_ & Hdom & _ & Htab). fold s0 in Hdom, Htab.
  rewrite (connect_accepted_eq w _ u p tk h); cbn [self disk log snd];
    try done; [|by rewrite <- Hdom in Hlogin].
  rewrite (run_from_connection_described w _ _ _ t h ds resp); try done.
  rewrite <- !app_assoc. cbn [app].
  change (domain (loaded u p tk s0)) with (domain s0). by rewrite Hdom.
Qed.



(** ** The script *)

Lemma main_prints_the_result_aux (w : world) (d : gmap string string) :
  (main w d).1
    = [(fetch_and_save_data w (Some "ContentVersion") (Some []) None (start d)).1] /\
  (main w d).2
    = (fetch_and_save_data w (Some "ContentVersion") (Some []) None (start d)).2.
Proof.
  unfold main.
  pose proof (run_result_truthy w (start d) (Some "ContentVersion") (Some []) None) as Htr.
  destruct (fetch_and_save_data w (Some "ContentVersion") (Some []) None (start d))
    as [result m]. cbn [fst snd] in *. by rewrite Htr.
Qed.




(** X30. Whatever the world does, the script changes no file but
    [ContentVersion.csv]. *)
Theorem main_touches_one_file (w : world) (d : gmap string string) (p : string) :
  p <> "ContentVersion.csv" ->
  disk (main w d).2 !! p = d !! p.
Proof.
  intros Hp. rewrite (proj2 (main_prints_the_result_aux w d)).
  destruct (run_decomposition w (start d) "ContentVersion" (Some []) None eq_refl)
    as (s' & d' & evs2 & evs3 & evs4 & -> & _ & _ & Hc4).
  cbn [disk]. change (disk (start d)) with d in Hc4.
  destruct Hc4 as [[_ ->] | [_ [-> | [c ->]]]]; try done.
  by rewrite lookup_insert_ne.
Qed.

Lemma main_touches_one_file_witness :
  disk (main Scenario.org_up ∅).2 !! "Account.csv" = (∅ : gmap string string) !! "Account.csv".
Proof.
  apply (main_touches_one_file Scenario.org_up ∅ "Account.csv"). discriminate.
Defined.
